(** * go-enum: per-enum annotation configuration

    A shallow embedding of the [generator] package's annotation
    configuration (type [EnumConfig], [ParseAnnotation],
    [setBoolOption], [setStringOption], [GetBool], [GetString]) in its
    two versions: the one that stores [interface{}] values (module
    [Dyn]) and the one with the generic slot [EnumConfigValue[T]]
    (module [Gen]).

    Go strings are byte strings: they are modelled by [string], whose
    characters are the 256 byte values.  The functions of Go's standard
    library that the code calls ([strings.TrimSpace], [strings.HasPrefix],
    [strings.Contains], [strings.SplitN], [strconv.ParseBool]) are
    modelled first. *)

From Stdlib Require Import Bool NArith ZArith List String Ascii Lia.
Import ListNotations.

Local Open Scope string_scope.
Local Open Scope nat_scope.

(* ------------------------------------------------------------------ *)
(** ** Bytes and slices *)

Definition byte_val (c : ascii) : N := N_of_ascii c.

(** [s[lo:hi]] and [s[lo:]].  Go panics when the bounds are out of range;
    every use below is guarded by a length test, and out of range
    [substring] truncates. *)
Definition slice (s : string) (lo hi : nat) : string := substring lo (hi - lo) s.
Definition slice_from (s : string) (lo : nat) : string := substring lo (length s - lo) s.

(** [s[i]] as a number; 0 stands for an index out of range, which the
    callers exclude. *)
Definition at_index (s : string) (i : nat) : N :=
  match get i s with
  | Some c => byte_val c
  | None => 0%N
  end.

(* ------------------------------------------------------------------ *)
(** ** unicode/utf8 *)

Module utf8.

Definition RuneError : N := 0xFFFD%N.
Definition RuneSelf : N := 0x80%N.
Definition UTFMax : nat := 4.

(** The table [first] with [acceptRanges] folded in: for a lead byte, the
    length of the sequence and the range accepted for the second byte.
    [None] is the entry [xx] (an invalid lead byte); ASCII bytes (entry
    [as]) are answered before the table is consulted. *)
Definition first (b0 : N) : option (nat * (N * N)) :=
  if (b0 <? 0xC2)%N then None
  else if (b0 <? 0xE0)%N then Some (2, (0x80, 0xBF)%N)
  else if (b0 =? 0xE0)%N then Some (3, (0xA0, 0xBF)%N)
  else if (b0 =? 0xED)%N then Some (3, (0x80, 0x9F)%N)
  else if (b0 <? 0xF0)%N then Some (3, (0x80, 0xBF)%N)
  else if (b0 =? 0xF0)%N then Some (4, (0x90, 0xBF)%N)
  else if (b0 <? 0xF4)%N then Some (4, (0x80, 0xBF)%N)
  else if (b0 =? 0xF4)%N then Some (4, (0x80, 0x8F)%N)
  else None.

Definition out_of (lo hi b : N) : bool := ((b <? lo) || (hi <? b))%N.

Definition DecodeRuneInString (s : string) : N * nat :=
  let n := length s in
  if n <? 1 then (RuneError, 0)
  else
    let s0 := at_index s 0 in
    if (s0 <? RuneSelf)%N then (s0, 1)
    else
      match first s0 with
      | None => (RuneError, 1)
      | Some (sz, (lo, hi)) =>
          if n <? sz then (RuneError, 1)
          else
            let s1 := at_index s 1 in
            if out_of lo hi s1 then (RuneError, 1)
            else if sz <=? 2 then
              (N.lor (N.shiftl (N.land s0 0x1F) 6) (N.land s1 0x3F), 2)
            else
              let s2 := at_index s 2 in
              if out_of 0x80 0xBF s2 then (RuneError, 1)
              else if sz <=? 3 then
                (N.lor (N.shiftl (N.land s0 0x0F) 12)
                   (N.lor (N.shiftl (N.land s1 0x3F) 6) (N.land s2 0x3F)), 3)
              else
                let s3 := at_index s 3 in
                if out_of 0x80 0xBF s3 then (RuneError, 1)
                else
                  (N.lor (N.shiftl (N.land s0 0x07) 18)
                     (N.lor (N.shiftl (N.land s1 0x3F) 12)
                        (N.lor (N.shiftl (N.land s2 0x3F) 6) (N.land s3 0x3F))), 4)
      end.

Definition RuneStart (b : N) : bool := negb (N.land b 0xC0 =? 0x80)%N.

(** The backward scan of [DecodeLastRuneInString]:
    [for start--; start >= lim; start-- { if RuneStart(s[start]) { break } }],
    entered with [start] already decremented; it runs at most [UTFMax]
    times since [lim >= end - UTFMax]. *)
Fixpoint scan_back (s : string) (lim start : Z) (n : nat) : Z :=
  match n with
  | O => start
  | S n' =>
      if (start <? lim)%Z then start
      else if RuneStart (at_index s (Z.to_nat start)) then start
      else scan_back s lim (start - 1)%Z n'
  end.

Definition DecodeLastRuneInString (s : string) : N * nat :=
  let end_ := length s in
  if end_ =? 0 then (RuneError, 0)
  else
    let r := at_index s (end_ - 1) in
    if (r <? RuneSelf)%N then (r, 1)
    else
      let lim := Z.max (Z.of_nat end_ - Z.of_nat UTFMax) 0 in
      let start := scan_back s lim (Z.of_nat end_ - 2)%Z UTFMax in
      let start := Z.to_nat (if (start <? 0)%Z then 0%Z else start) in
      let (r, size) := DecodeRuneInString (slice s start end_) in
      if negb (start + size =? end_) then (RuneError, 1)
      else (r, size).

End utf8.

(* ------------------------------------------------------------------ *)
(** ** unicode.IsSpace *)

Module unicode.

(** White space as Unicode's [White_Space] property has it: the Latin-1
    switch of [IsSpace] and, above it, the [White_Space] range table. *)
Definition IsSpace (r : N) : bool :=
  if (r <=? 0xFF)%N then
    ((r =? 0x09) || (r =? 0x0A) || (r =? 0x0B) || (r =? 0x0C) || (r =? 0x0D)
     || (r =? 0x20) || (r =? 0x85) || (r =? 0xA0))%N
  else
    ((r =? 0x1680) || ((0x2000 <=? r) && (r <=? 0x200A))
     || (r =? 0x2028) || (r =? 0x2029) || (r =? 0x202F)
     || (r =? 0x205F) || (r =? 0x3000))%N.

End unicode.

(* ------------------------------------------------------------------ *)
(** ** package strings *)

Module strings.

(** [asciiSpace]: tab, newline, vertical tab, form feed, carriage return,
    space. *)
Definition asciiSpace (b : N) : bool :=
  ((b =? 0x09) || (b =? 0x0A) || (b =? 0x0B) || (b =? 0x0C) || (b =? 0x0D)
   || (b =? 0x20))%N.

(** [indexFunc]: the index of the first rune [r] of [s] with
    [f r = truth].  The [for i, r := range s] loop decodes one rune at
    [i] and moves on by its width: [skip] counts the bytes of the current
    rune still to be passed over.  [None] is Go's [-1]. *)
Fixpoint indexFunc_loop (f : N -> bool) (truth : bool) (s : string) (i skip : nat)
  : option nat :=
  match s with
  | EmptyString => None
  | String _ s' =>
      match skip with
      | S k => indexFunc_loop f truth s' (S i) k
      | O =>
          let (r, size) := utf8.DecodeRuneInString s in
          if Bool.eqb (f r) truth then Some i
          else indexFunc_loop f truth s' (S i) (size - 1)
      end
  end.

Definition indexFunc (s : string) (f : N -> bool) (truth : bool) : option nat :=
  indexFunc_loop f truth s 0 0.

(** [lastIndexFunc]: [for i := len(s); i > 0; ] decoding the last rune of
    [s[0:i]] and stepping back by its size; [skip] as above. *)
Fixpoint lastIndexFunc_loop (f : N -> bool) (truth : bool) (s : string) (i skip : nat)
  : option nat :=
  match i with
  | O => None
  | S j =>
      match skip with
      | S k => lastIndexFunc_loop f truth s j k
      | O =>
          let (r, size) := utf8.DecodeLastRuneInString (slice s 0 i) in
          if Bool.eqb (f r) truth then Some (i - size)
          else lastIndexFunc_loop f truth s j (size - 1)
      end
  end.

Definition lastIndexFunc (s : string) (f : N -> bool) (truth : bool) : option nat :=
  lastIndexFunc_loop f truth s (length s) 0.

Definition TrimLeftFunc (s : string) (f : N -> bool) : string :=
  match indexFunc s f false with
  | None => ""
  | Some i => slice_from s i
  end.

Definition TrimRightFunc (s : string) (f : N -> bool) : string :=
  match lastIndexFunc s f false with
  | Some i =>
      if (utf8.RuneSelf <=? at_index s i)%N then
        let (_, wid) := utf8.DecodeRuneInString (slice_from s i) in
        slice s 0 (i + wid)
      else slice s 0 (i + 1)
  | None => slice s 0 0
  end.

Definition TrimFunc (s : string) (f : N -> bool) : string :=
  TrimRightFunc (TrimLeftFunc s f) f.

(** The second loop of [TrimSpace], on [s[start:]]: [stop] runs down from
    the end over ASCII spaces. *)
Fixpoint TrimSpace_stop (s : string) (stop : nat) : string :=
  match stop with
  | O => slice s 0 0
  | S k =>
      let c := at_index s k in
      if (utf8.RuneSelf <=? c)%N then TrimRightFunc (slice s 0 stop) unicode.IsSpace
      else if negb (asciiSpace c) then slice s 0 stop
      else TrimSpace_stop s k
  end.

(** The first loop of [TrimSpace]: [start] runs up over ASCII spaces; the
    argument is [s[start:]]. *)
Fixpoint TrimSpace (s : string) : string :=
  match s with
  | EmptyString => TrimSpace_stop s (length s)
  | String c s' =>
      if (utf8.RuneSelf <=? byte_val c)%N then TrimFunc s unicode.IsSpace
      else if negb (asciiSpace (byte_val c)) then TrimSpace_stop s (length s)
      else TrimSpace s'
  end.

Definition HasPrefix (s prefix : string) : bool := String.prefix prefix s.

(** [Index]: the first position at which [substr] occurs in [s]; [None]
    is Go's [-1]. *)
Fixpoint Index (s substr : string) : option nat :=
  if String.prefix substr s then Some 0
  else
    match s with
    | EmptyString => None
    | String _ s' =>
        match Index s' substr with
        | Some i => Some (S i)
        | None => None
        end
    end.

Definition Contains (s substr : string) : bool :=
  match Index s substr with
  | Some _ => true
  | None => false
  end.

(** The loop of [genSplit] with [sepSave = 0]: [n] pieces are still to be
    cut off before the rest is stored as the last one. *)
Fixpoint genSplit_loop (s sep : string) (n : nat) : list string :=
  match n with
  | O => [s]
  | S n' =>
      match Index s sep with
      | None => [s]
      | Some m => slice s 0 m :: genSplit_loop (slice_from s (m + length sep)) sep n'
      end
  end.

(** [SplitN(s, sep, n)] for [n >= 0] and a separator that is not empty,
    the two ways this package calls it.  (For the empty separator Go
    explodes [s] into its UTF-8 sequences; that branch is not embedded
    and answers [[s]].) *)
Definition SplitN (s sep : string) (n : nat) : list string :=
  if n =? 0 then []
  else if String.eqb sep "" then [s]
  else
    let n := if length s + 1 <? n then length s + 1 else n in
    genSplit_loop s sep (n - 1).

End strings.

(* ------------------------------------------------------------------ *)
(** ** package strconv *)

Module strconv.

(** [ParseBool]: [None] is the syntax error, with which Go returns
    [false] as the value. *)
Definition ParseBool (str : string) : option bool :=
  if existsb (String.eqb str) ["1"; "t"; "T"; "TRUE"; "true"; "True"] then Some true
  else if existsb (String.eqb str) ["0"; "f"; "F"; "FALSE"; "false"; "False"] then Some false
  else None.

End strconv.


(* ------------------------------------------------------------------ *)
(** ** What a call leaves behind *)

(** The [error] a method returns: [Nil] is Go's [nil], [Errorf msg] the
    value of [fmt.Errorf] with its formatted message.  [IndexPanic] is not
    an error value but the run-time panic of an index out of range
    ([parts[1]]); [ParseAnnotation_never_panics] shows it is never
    reached. *)
Inductive outcome : Type :=
| Nil
| Errorf (msg : string)
| IndexPanic.

(** The names of the boolean fields of [EnumConfig], in the order of the
    struct, to select a field in [ec.F = v]. *)
Module Field.

Inductive bool_field : Type :=
| NoPrefix | NoIota | LowercaseLookup | CaseInsensitive | Marshal
| SQL | SQLInt | Flag | Names | Values
| LeaveSnakeCase | Ptr | SQLNullInt | SQLNullStr | MustParse
| ForceLower | ForceUpper | NoComments | NoParse.

Definition all : list bool_field :=
  [NoPrefix; NoIota; LowercaseLookup; CaseInsensitive; Marshal; SQL;
   SQLInt; Flag; Names; Values; LeaveSnakeCase; Ptr;
   SQLNullInt; SQLNullStr; MustParse; ForceLower; ForceUpper; NoComments;
   NoParse].

Definition eqb (f g : bool_field) : bool :=
  match f, g with
  | NoPrefix, NoPrefix => true | NoIota, NoIota => true
  | LowercaseLookup, LowercaseLookup => true | CaseInsensitive, CaseInsensitive => true
  | Marshal, Marshal => true | SQL, SQL => true
  | SQLInt, SQLInt => true | Flag, Flag => true
  | Names, Names => true | Values, Values => true
  | LeaveSnakeCase, LeaveSnakeCase => true | Ptr, Ptr => true
  | SQLNullInt, SQLNullInt => true | SQLNullStr, SQLNullStr => true
  | MustParse, MustParse => true | ForceLower, ForceLower => true
  | ForceUpper, ForceUpper => true | NoComments, NoComments => true
  | NoParse, NoParse => true
  | _, _ => false
  end.

(** The [case] label under which [setBoolOption] assigns the field, and
    the [switch] read as a table from labels to fields. *)
Definition key (f : bool_field) : string :=
  match f with
  | NoPrefix => "noprefix" | NoIota => "noiota" | LowercaseLookup => "lower"
  | CaseInsensitive => "nocase" | Marshal => "marshal" | SQL => "sql"
  | SQLInt => "sqlint" | Flag => "flag" | Names => "names"
  | Values => "values" | LeaveSnakeCase => "nocamel" | Ptr => "ptr"
  | SQLNullInt => "sqlnullint" | SQLNullStr => "sqlnullstr" | MustParse => "mustparse"
  | ForceLower => "forcelower" | ForceUpper => "forceupper" | NoComments => "nocomments"
  | NoParse => "noparse"
  end.

Definition of_key (k : string) : option bool_field :=
  if String.eqb k "noprefix" then Some NoPrefix
  else if String.eqb k "noiota" then Some NoIota
  else if String.eqb k "lower" then Some LowercaseLookup
  else if String.eqb k "nocase" then Some CaseInsensitive
  else if String.eqb k "marshal" then Some Marshal
  else if String.eqb k "sql" then Some SQL
  else if String.eqb k "sqlint" then Some SQLInt
  else if String.eqb k "flag" then Some Flag
  else if String.eqb k "names" then Some Names
  else if String.eqb k "values" then Some Values
  else if String.eqb k "nocamel" then Some LeaveSnakeCase
  else if String.eqb k "ptr" then Some Ptr
  else if String.eqb k "sqlnullint" then Some SQLNullInt
  else if String.eqb k "sqlnullstr" then Some SQLNullStr
  else if String.eqb k "mustparse" then Some MustParse
  else if String.eqb k "forcelower" then Some ForceLower
  else if String.eqb k "forceupper" then Some ForceUpper
  else if String.eqb k "nocomments" then Some NoComments
  else if String.eqb k "noparse" then Some NoParse
  else None.

End Field.

(** The statement both branches of [ParseAnnotation] use to take one
    layer of quotes off:
    [if len(value) >= 2 && ((value[0] == DQ && value[len(value)-1] == DQ) ||
     (value[0] == SQ && value[len(value)-1] == SQ)) { value = value[1 : len(value)-1] }]
    with [DQ] the double quote (34) and [SQ] the single quote (39). *)
Definition strip_quotes (value : string) : string :=
  let n := length value in
  if (2 <=? n)
     && (((at_index value 0 =? 34)%N && (at_index value (n - 1) =? 34)%N)
         || ((at_index value 0 =? 39)%N && (at_index value (n - 1) =? 39)%N))
  then slice value 1 (n - 1)
  else value.

(* ------------------------------------------------------------------ *)
(** ** The decision taken from the text alone *)

(** Before it touches the configuration, [ParseAnnotation] settles from
    the annotation alone what is to be done: nothing, fail with a
    message, or call one of the two setters with a key and a value.
    [directive_action] is that decision, written once for the two
    versions, whose texts agree up to the call of the setters;
    [Dyn.ParseAnnotation_action] and [Gen.ParseAnnotation_action] prove
    that each version performs it. *)
Inductive action : Type :=
| Skip
| Reject (msg : string)
| Crash
| SetBool (key : string) (value : bool)
| SetString (key value : string).

Definition directive_action (annotation : string) : action :=
  let annotation := strings.TrimSpace annotation in
  if String.eqb annotation "" then Skip
  else if negb (strings.HasPrefix annotation "@") then
    Reject ("annotation must start with @: " ++ annotation)
  else
    let annotation := slice_from annotation 1 in
    if strings.Contains annotation ":" then
      let parts := strings.SplitN annotation ":" 2 in
      match nth_error parts 0, nth_error parts 1 with
      | Some part0, Some part1 =>
          let key := strings.TrimSpace part0 in
          let value := strings.TrimSpace part1 in
          if String.eqb value "true" || String.eqb value "false" then
            SetBool key match strconv.ParseBool value with
                        | Some b => b
                        | None => false
                        end
          else SetString key (strip_quotes value)
      | _, _ => Crash
      end
    else if strings.Contains annotation "=" then
      let parts := strings.SplitN annotation "=" 2 in
      match nth_error parts 0, nth_error parts 1 with
      | Some part0, Some part1 =>
          SetString (strings.TrimSpace part0) (strip_quotes (strings.TrimSpace part1))
      | _, _ => Crash
      end
    else SetBool annotation true.

(** The text of a boolean value in a directive. *)
Definition bool_text (value : bool) : string := if value then "true" else "false".

(** The readings of an annotation: what its trimmed text looks like and
    the decision that goes with it ([directive_action_reading]). *)
Inductive reading (d : string) : action -> Prop :=
| read_empty :
    strings.TrimSpace d = "" -> reading d Skip
| read_unmarked :
    strings.TrimSpace d <> "" ->
    strings.HasPrefix (strings.TrimSpace d) "@" = false ->
    reading d (Reject ("annotation must start with @: " ++ strings.TrimSpace d))
| read_colon (k v : string) :
    strings.TrimSpace d = "@" ++ k ++ ":" ++ v ->
    strings.Index k ":" = None ->
    reading d
      (if String.eqb (strings.TrimSpace v) "true" then SetBool (strings.TrimSpace k) true
       else if String.eqb (strings.TrimSpace v) "false" then SetBool (strings.TrimSpace k) false
       else SetString (strings.TrimSpace k) (strip_quotes (strings.TrimSpace v)))
| read_equals (k v : string) :
    strings.TrimSpace d = "@" ++ k ++ "=" ++ v ->
    strings.Contains (k ++ "=" ++ v) ":" = false ->
    strings.Index k "=" = None ->
    reading d (SetString (strings.TrimSpace k) (strip_quotes (strings.TrimSpace v)))
| read_bare (body : string) :
    strings.TrimSpace d = "@" ++ body ->
    strings.Contains body ":" = false ->
    strings.Contains body "=" = false ->
    reading d (SetBool body true).

(** One step of a case analysis along the tests of the code. *)
Ltac split_on_test :=
  match goal with
  | |- context [match nth_error ?l ?i with _ => _ end] => destruct (nth_error l i)
  | |- context [if ?c then _ else _] => destruct c
  end.

(* ------------------------------------------------------------------ *)
(** ** The version storing [interface{}] values *)

Module Dyn.

(** What an [interface{}] slot holds: [nil] (the zero value), a [bool], a
    [string], or a value of some other dynamic type, of which only the
    type's name is kept. *)
Inductive any : Type :=
| any_nil
| any_bool (b : bool)
| any_string (s : string)
| any_other (type_name : string).

Record EnumConfigValue : Type := mkValue {
  Value : any;
  Valid : bool
}.

Definition GetBool (v : EnumConfigValue) (defaultValue : bool) : bool :=
  if Valid v then
    match Value v with
    | any_bool b => b
    | _ => defaultValue
    end
  else defaultValue.

Definition GetString (v : EnumConfigValue) (defaultValue : string) : string :=
  if Valid v then
    match Value v with
    | any_string s => s
    | _ => defaultValue
    end
  else defaultValue.

(** The zero value of the struct. *)
Definition zero : EnumConfigValue := {| Value := any_nil; Valid := false |}.
Definition bool_value (value : bool) : EnumConfigValue :=
  {| Value := any_bool value; Valid := true |}.
Definition string_value (value : string) : EnumConfigValue :=
  {| Value := any_string value; Valid := true |}.

Record EnumConfig : Type := mkEnumConfig {
  NoPrefix : EnumConfigValue;
  NoIota : EnumConfigValue;
  LowercaseLookup : EnumConfigValue;
  CaseInsensitive : EnumConfigValue;
  Marshal : EnumConfigValue;
  SQL : EnumConfigValue;
  SQLInt : EnumConfigValue;
  Flag : EnumConfigValue;
  Names : EnumConfigValue;
  Values : EnumConfigValue;
  LeaveSnakeCase : EnumConfigValue;
  Ptr : EnumConfigValue;
  SQLNullInt : EnumConfigValue;
  SQLNullStr : EnumConfigValue;
  MustParse : EnumConfigValue;
  ForceLower : EnumConfigValue;
  ForceUpper : EnumConfigValue;
  NoComments : EnumConfigValue;
  NoParse : EnumConfigValue;
  Prefix : EnumConfigValue
}.

Definition NewEnumConfig : EnumConfig :=
  {| NoPrefix := zero;
     NoIota := zero;
     LowercaseLookup := zero;
     CaseInsensitive := zero;
     Marshal := zero;
     SQL := zero;
     SQLInt := zero;
     Flag := zero;
     Names := zero;
     Values := zero;
     LeaveSnakeCase := zero;
     Ptr := zero;
     SQLNullInt := zero;
     SQLNullStr := zero;
     MustParse := zero;
     ForceLower := zero;
     ForceUpper := zero;
     NoComments := zero;
     NoParse := zero;
     Prefix := zero |}.

(** Reading the boolean field [f], and the assignment [ec.f = v]. *)
Definition get_bool (f : Field.bool_field) (ec : EnumConfig) : EnumConfigValue :=
  match f with
  | Field.NoPrefix => NoPrefix ec
  | Field.NoIota => NoIota ec
  | Field.LowercaseLookup => LowercaseLookup ec
  | Field.CaseInsensitive => CaseInsensitive ec
  | Field.Marshal => Marshal ec
  | Field.SQL => SQL ec
  | Field.SQLInt => SQLInt ec
  | Field.Flag => Flag ec
  | Field.Names => Names ec
  | Field.Values => Values ec
  | Field.LeaveSnakeCase => LeaveSnakeCase ec
  | Field.Ptr => Ptr ec
  | Field.SQLNullInt => SQLNullInt ec
  | Field.SQLNullStr => SQLNullStr ec
  | Field.MustParse => MustParse ec
  | Field.ForceLower => ForceLower ec
  | Field.ForceUpper => ForceUpper ec
  | Field.NoComments => NoComments ec
  | Field.NoParse => NoParse ec
  end.

Definition set_bool (f : Field.bool_field) (v : EnumConfigValue) (ec : EnumConfig)
  : EnumConfig :=
  let upd g old := if Field.eqb f g then v else old in
  {| NoPrefix := upd Field.NoPrefix (NoPrefix ec);
     NoIota := upd Field.NoIota (NoIota ec);
     LowercaseLookup := upd Field.LowercaseLookup (LowercaseLookup ec);
     CaseInsensitive := upd Field.CaseInsensitive (CaseInsensitive ec);
     Marshal := upd Field.Marshal (Marshal ec);
     SQL := upd Field.SQL (SQL ec);
     SQLInt := upd Field.SQLInt (SQLInt ec);
     Flag := upd Field.Flag (Flag ec);
     Names := upd Field.Names (Names ec);
     Values := upd Field.Values (Values ec);
     LeaveSnakeCase := upd Field.LeaveSnakeCase (LeaveSnakeCase ec);
     Ptr := upd Field.Ptr (Ptr ec);
     SQLNullInt := upd Field.SQLNullInt (SQLNullInt ec);
     SQLNullStr := upd Field.SQLNullStr (SQLNullStr ec);
     MustParse := upd Field.MustParse (MustParse ec);
     ForceLower := upd Field.ForceLower (ForceLower ec);
     ForceUpper := upd Field.ForceUpper (ForceUpper ec);
     NoComments := upd Field.NoComments (NoComments ec);
     NoParse := upd Field.NoParse (NoParse ec);
     Prefix := Prefix ec |}.

Definition set_Prefix (v : EnumConfigValue) (ec : EnumConfig) : EnumConfig :=
  {| NoPrefix := NoPrefix ec;
     NoIota := NoIota ec;
     LowercaseLookup := LowercaseLookup ec;
     CaseInsensitive := CaseInsensitive ec;
     Marshal := Marshal ec;
     SQL := SQL ec;
     SQLInt := SQLInt ec;
     Flag := Flag ec;
     Names := Names ec;
     Values := Values ec;
     LeaveSnakeCase := LeaveSnakeCase ec;
     Ptr := Ptr ec;
     SQLNullInt := SQLNullInt ec;
     SQLNullStr := SQLNullStr ec;
     MustParse := MustParse ec;
     ForceLower := ForceLower ec;
     ForceUpper := ForceUpper ec;
     NoComments := NoComments ec;
     NoParse := NoParse ec;
     Prefix := v |}.

(** [setBoolOption]: the [switch key], case after case. *)
Definition setBoolOption (key : string) (value : bool) (ec : EnumConfig)
  : EnumConfig * outcome :=
  if String.eqb key "noprefix" then (set_bool Field.NoPrefix (bool_value value) ec, Nil)
  else if String.eqb key "noiota" then (set_bool Field.NoIota (bool_value value) ec, Nil)
  else if String.eqb key "lower" then (set_bool Field.LowercaseLookup (bool_value value) ec, Nil)
  else if String.eqb key "nocase" then
    let ec := set_bool Field.CaseInsensitive (bool_value value) ec in
    let ec :=
      if value then set_bool Field.LowercaseLookup (bool_value true) ec (* nocase forces lower *)
      else ec in
    (ec, Nil)
  else if String.eqb key "marshal" then (set_bool Field.Marshal (bool_value value) ec, Nil)
  else if String.eqb key "sql" then (set_bool Field.SQL (bool_value value) ec, Nil)
  else if String.eqb key "sqlint" then (set_bool Field.SQLInt (bool_value value) ec, Nil)
  else if String.eqb key "flag" then (set_bool Field.Flag (bool_value value) ec, Nil)
  else if String.eqb key "names" then (set_bool Field.Names (bool_value value) ec, Nil)
  else if String.eqb key "values" then (set_bool Field.Values (bool_value value) ec, Nil)
  else if String.eqb key "nocamel" then (set_bool Field.LeaveSnakeCase (bool_value value) ec, Nil)
  else if String.eqb key "ptr" then (set_bool Field.Ptr (bool_value value) ec, Nil)
  else if String.eqb key "sqlnullint" then (set_bool Field.SQLNullInt (bool_value value) ec, Nil)
  else if String.eqb key "sqlnullstr" then (set_bool Field.SQLNullStr (bool_value value) ec, Nil)
  else if String.eqb key "mustparse" then (set_bool Field.MustParse (bool_value value) ec, Nil)
  else if String.eqb key "forcelower" then (set_bool Field.ForceLower (bool_value value) ec, Nil)
  else if String.eqb key "forceupper" then (set_bool Field.ForceUpper (bool_value value) ec, Nil)
  else if String.eqb key "nocomments" then (set_bool Field.NoComments (bool_value value) ec, Nil)
  else if String.eqb key "noparse" then (set_bool Field.NoParse (bool_value value) ec, Nil)
  else (ec, Errorf ("unknown annotation: @" ++ key)).

Definition setStringOption (key value : string) (ec : EnumConfig)
  : EnumConfig * outcome :=
  if String.eqb key "prefix" then (set_Prefix (string_value value) ec, Nil)
  else (ec, Errorf ("unknown annotation with value: @" ++ key ++ "=" ++ value)).

Definition ParseAnnotation (annotation : string) (ec : EnumConfig)
  : EnumConfig * outcome :=
  let annotation := strings.TrimSpace annotation in
  if String.eqb annotation "" then (ec, Nil)
  else if negb (strings.HasPrefix annotation "@") then
    (ec, Errorf ("annotation must start with @: " ++ annotation))
  else
    let annotation := slice_from annotation 1 in
    if strings.Contains annotation ":" then
      let parts := strings.SplitN annotation ":" 2 in
      match nth_error parts 0, nth_error parts 1 with
      | Some part0, Some part1 =>
          let key := strings.TrimSpace part0 in
          let value := strings.TrimSpace part1 in
          if String.eqb value "true" || String.eqb value "false" then
            let boolValue :=
              match strconv.ParseBool value with
              | Some b => b
              | None => false
              end in
            setBoolOption key boolValue ec
          else
            let value := strip_quotes value in
            setStringOption key value ec
      | _, _ => (ec, IndexPanic)
      end
    else if strings.Contains annotation "=" then
      let parts := strings.SplitN annotation "=" 2 in
      match nth_error parts 0, nth_error parts 1 with
      | Some part0, Some part1 =>
          let key := strings.TrimSpace part0 in
          let value := strings.TrimSpace part1 in
          let value := strip_quotes value in
          setStringOption key value ec
      | _, _ => (ec, IndexPanic)
      end
    else setBoolOption annotation true ec.

(** *** Vocabulary of the statements *)

(** All the fields of the struct. *)
Inductive field : Type :=
| BoolField (f : Field.bool_field)
| PrefixField.

Definition get (f : field) (ec : EnumConfig) : EnumConfigValue :=
  match f with
  | BoolField b => get_bool b ec
  | PrefixField => Prefix ec
  end.

Definition key_of (f : field) : string :=
  match f with
  | BoolField b => Field.key b
  | PrefixField => "prefix"
  end.

(** What the case of field [f] does in [setBoolOption]. *)
Definition assign_bool (f : Field.bool_field) (value : bool) (ec : EnumConfig)
  : EnumConfig :=
  match f with
  | Field.CaseInsensitive =>
      let ec := set_bool Field.CaseInsensitive (bool_value value) ec in
      if value then set_bool Field.LowercaseLookup (bool_value true) ec else ec
  | _ => set_bool f (bool_value value) ec
  end.

Definition perform (a : action) (ec : EnumConfig) : EnumConfig * outcome :=
  match a with
  | Skip => (ec, Nil)
  | Reject msg => (ec, Errorf msg)
  | Crash => (ec, IndexPanic)
  | SetBool key value => setBoolOption key value ec
  | SetString key value => setStringOption key value ec
  end.

(** The caller's loop over the annotations of one enum, keeping what each
    call returned. *)
Fixpoint parse_all (annotations : list string) (ec : EnumConfig)
  : EnumConfig * list outcome :=
  match annotations with
  | [] => (ec, [])
  | a :: rest =>
      let (ec1, o) := ParseAnnotation a ec in
      let (ec2, os) := parse_all rest ec1 in
      (ec2, o :: os)
  end.

(** The three forms of a directive, as the grammar lists them, with the
    key and the value each one stands for: [directive_form d key v] for a
    directive [d] already trimmed. *)
Inductive directive_form : string -> string -> any -> Prop :=
| bare_key (body : string) :
    strings.Contains body ":" = false ->
    strings.Contains body "=" = false ->
    directive_form ("@" ++ body) body (any_bool true)
| key_colon_bool (k v : string) (value : bool) :
    strings.Index k ":" = None ->
    strings.TrimSpace v = bool_text value ->
    directive_form ("@" ++ k ++ ":" ++ v) (strings.TrimSpace k) (any_bool value)
| key_colon_string (k v : string) :
    strings.Index k ":" = None ->
    strings.TrimSpace v <> "true" ->
    strings.TrimSpace v <> "false" ->
    directive_form ("@" ++ k ++ ":" ++ v) (strings.TrimSpace k)
      (any_string (strip_quotes (strings.TrimSpace v)))
| key_equals (k v : string) :
    strings.Index k "=" = None ->
    strings.Contains (k ++ "=" ++ v) ":" = false ->
    directive_form ("@" ++ k ++ "=" ++ v) (strings.TrimSpace k)
      (any_string (strip_quotes (strings.TrimSpace v))).

(** [CaseInsensitive] set to true implies [LowercaseLookup] set to true. *)
Definition nocase_implies_lower (ec : EnumConfig) : Prop :=
  CaseInsensitive ec = bool_value true -> LowercaseLookup ec = bool_value true.

(** Exactly one field of [ec] is set. *)
Definition sets_exactly_one (ec : EnumConfig) : Prop :=
  exists f, Valid (get f ec) = true /\
            forall g, g <> f -> Valid (get g ec) = false.

(** Field [f] of [ec] is set and holds [v], and every other field is the
    zero value. *)
Definition sets_only (f : field) (v : any) (ec : EnumConfig) : Prop :=
  get f ec = mkValue v true /\
  forall g, g <> f -> get g ec = zero.

(** [CaseInsensitive] and [LowercaseLookup] are set and hold true, and
    every other field is the zero value. *)
Definition sets_nocase_pair (ec : EnumConfig) : Prop :=
  CaseInsensitive ec = bool_value true /\
  LowercaseLookup ec = bool_value true /\
  forall g, g <> BoolField Field.CaseInsensitive ->
            g <> BoolField Field.LowercaseLookup -> get g ec = zero.

End Dyn.

(* ------------------------------------------------------------------ *)
(** ** The version with the generic slot [EnumConfigValue[T]] *)

Module Gen.

Record EnumConfigValue (T : Type) : Type := mkValue {
  Value : T;
  Valid : bool
}.
Arguments mkValue {T} _ _.
Arguments Value {T} _.
Arguments Valid {T} _.

(** In [func (v *EnumConfigValue[bool]) GetBool(def bool) bool] the
    receiver's [bool] names the type parameter: the method exists at
    every instance [T] of the slot, and so does [GetString]. *)
Definition GetBool {T : Type} (v : EnumConfigValue T) (def : T) : T :=
  if Valid v then Value v else def.

Definition GetString {T : Type} (v : EnumConfigValue T) (def : T) : T :=
  if Valid v then Value v else def.

(** The zero values of the two instances. *)
Definition zero_bool : EnumConfigValue bool := {| Value := false; Valid := false |}.
Definition zero_string : EnumConfigValue string := {| Value := ""; Valid := false |}.

Record EnumConfig : Type := mkEnumConfig {
  NoPrefix : EnumConfigValue bool;
  NoIota : EnumConfigValue bool;
  LowercaseLookup : EnumConfigValue bool;
  CaseInsensitive : EnumConfigValue bool;
  Marshal : EnumConfigValue bool;
  SQL : EnumConfigValue bool;
  SQLInt : EnumConfigValue bool;
  Flag : EnumConfigValue bool;
  Names : EnumConfigValue bool;
  Values : EnumConfigValue bool;
  LeaveSnakeCase : EnumConfigValue bool;
  Ptr : EnumConfigValue bool;
  SQLNullInt : EnumConfigValue bool;
  SQLNullStr : EnumConfigValue bool;
  MustParse : EnumConfigValue bool;
  ForceLower : EnumConfigValue bool;
  ForceUpper : EnumConfigValue bool;
  NoComments : EnumConfigValue bool;
  NoParse : EnumConfigValue bool;
  Prefix : EnumConfigValue string
}.

Definition NewEnumConfig : EnumConfig :=
  {| NoPrefix := zero_bool;
     NoIota := zero_bool;
     LowercaseLookup := zero_bool;
     CaseInsensitive := zero_bool;
     Marshal := zero_bool;
     SQL := zero_bool;
     SQLInt := zero_bool;
     Flag := zero_bool;
     Names := zero_bool;
     Values := zero_bool;
     LeaveSnakeCase := zero_bool;
     Ptr := zero_bool;
     SQLNullInt := zero_bool;
     SQLNullStr := zero_bool;
     MustParse := zero_bool;
     ForceLower := zero_bool;
     ForceUpper := zero_bool;
     NoComments := zero_bool;
     NoParse := zero_bool;
     Prefix := zero_string |}.

(** Reading the boolean field [f], and the assignment [ec.f = v]. *)
Definition get_bool (f : Field.bool_field) (ec : EnumConfig) : EnumConfigValue bool :=
  match f with
  | Field.NoPrefix => NoPrefix ec
  | Field.NoIota => NoIota ec
  | Field.LowercaseLookup => LowercaseLookup ec
  | Field.CaseInsensitive => CaseInsensitive ec
  | Field.Marshal => Marshal ec
  | Field.SQL => SQL ec
  | Field.SQLInt => SQLInt ec
  | Field.Flag => Flag ec
  | Field.Names => Names ec
  | Field.Values => Values ec
  | Field.LeaveSnakeCase => LeaveSnakeCase ec
  | Field.Ptr => Ptr ec
  | Field.SQLNullInt => SQLNullInt ec
  | Field.SQLNullStr => SQLNullStr ec
  | Field.MustParse => MustParse ec
  | Field.ForceLower => ForceLower ec
  | Field.ForceUpper => ForceUpper ec
  | Field.NoComments => NoComments ec
  | Field.NoParse => NoParse ec
  end.

Definition set_bool (f : Field.bool_field) (v : EnumConfigValue bool) (ec : EnumConfig)
  : EnumConfig :=
  let upd g old := if Field.eqb f g then v else old in
  {| NoPrefix := upd Field.NoPrefix (NoPrefix ec);
     NoIota := upd Field.NoIota (NoIota ec);
     LowercaseLookup := upd Field.LowercaseLookup (LowercaseLookup ec);
     CaseInsensitive := upd Field.CaseInsensitive (CaseInsensitive ec);
     Marshal := upd Field.Marshal (Marshal ec);
     SQL := upd Field.SQL (SQL ec);
     SQLInt := upd Field.SQLInt (SQLInt ec);
     Flag := upd Field.Flag (Flag ec);
     Names := upd Field.Names (Names ec);
     Values := upd Field.Values (Values ec);
     LeaveSnakeCase := upd Field.LeaveSnakeCase (LeaveSnakeCase ec);
     Ptr := upd Field.Ptr (Ptr ec);
     SQLNullInt := upd Field.SQLNullInt (SQLNullInt ec);
     SQLNullStr := upd Field.SQLNullStr (SQLNullStr ec);
     MustParse := upd Field.MustParse (MustParse ec);
     ForceLower := upd Field.ForceLower (ForceLower ec);
     ForceUpper := upd Field.ForceUpper (ForceUpper ec);
     NoComments := upd Field.NoComments (NoComments ec);
     NoParse := upd Field.NoParse (NoParse ec);
     Prefix := Prefix ec |}.

Definition set_Prefix (v : EnumConfigValue string) (ec : EnumConfig) : EnumConfig :=
  {| NoPrefix := NoPrefix ec;
     NoIota := NoIota ec;
     LowercaseLookup := LowercaseLookup ec;
     CaseInsensitive := CaseInsensitive ec;
     Marshal := Marshal ec;
     SQL := SQL ec;
     SQLInt := SQLInt ec;
     Flag := Flag ec;
     Names := Names ec;
     Values := Values ec;
     LeaveSnakeCase := LeaveSnakeCase ec;
     Ptr := Ptr ec;
     SQLNullInt := SQLNullInt ec;
     SQLNullStr := SQLNullStr ec;
     MustParse := MustParse ec;
     ForceLower := ForceLower ec;
     ForceUpper := ForceUpper ec;
     NoComments := NoComments ec;
     NoParse := NoParse ec;
     Prefix := v |}.

(** [setBoolOption]: the [switch key], case after case. *)
Definition setBoolOption (key : string) (value : bool) (ec : EnumConfig)
  : EnumConfig * outcome :=
  if String.eqb key "noprefix" then (set_bool Field.NoPrefix (mkValue value true) ec, Nil)
  else if String.eqb key "noiota" then (set_bool Field.NoIota (mkValue value true) ec, Nil)
  else if String.eqb key "lower" then (set_bool Field.LowercaseLookup (mkValue value true) ec, Nil)
  else if String.eqb key "nocase" then
    let ec := set_bool Field.CaseInsensitive (mkValue value true) ec in
    let ec :=
      if value then set_bool Field.LowercaseLookup (mkValue true true) ec (* nocase forces lower *)
      else ec in
    (ec, Nil)
  else if String.eqb key "marshal" then (set_bool Field.Marshal (mkValue value true) ec, Nil)
  else if String.eqb key "sql" then (set_bool Field.SQL (mkValue value true) ec, Nil)
  else if String.eqb key "sqlint" then (set_bool Field.SQLInt (mkValue value true) ec, Nil)
  else if String.eqb key "flag" then (set_bool Field.Flag (mkValue value true) ec, Nil)
  else if String.eqb key "names" then (set_bool Field.Names (mkValue value true) ec, Nil)
  else if String.eqb key "values" then (set_bool Field.Values (mkValue value true) ec, Nil)
  else if String.eqb key "nocamel" then (set_bool Field.LeaveSnakeCase (mkValue value true) ec, Nil)
  else if String.eqb key "ptr" then (set_bool Field.Ptr (mkValue value true) ec, Nil)
  else if String.eqb key "sqlnullint" then (set_bool Field.SQLNullInt (mkValue value true) ec, Nil)
  else if String.eqb key "sqlnullstr" then (set_bool Field.SQLNullStr (mkValue value true) ec, Nil)
  else if String.eqb key "mustparse" then (set_bool Field.MustParse (mkValue value true) ec, Nil)
  else if String.eqb key "forcelower" then (set_bool Field.ForceLower (mkValue value true) ec, Nil)
  else if String.eqb key "forceupper" then (set_bool Field.ForceUpper (mkValue value true) ec, Nil)
  else if String.eqb key "nocomments" then (set_bool Field.NoComments (mkValue value true) ec, Nil)
  else if String.eqb key "noparse" then (set_bool Field.NoParse (mkValue value true) ec, Nil)
  else (ec, Errorf ("unknown annotation: @" ++ key)).

Definition setStringOption (key value : string) (ec : EnumConfig)
  : EnumConfig * outcome :=
  if String.eqb key "prefix" then (set_Prefix (mkValue value true) ec, Nil)
  else (ec, Errorf ("unknown annotation with value: @" ++ key ++ "=" ++ value)).

Definition ParseAnnotation (annotation : string) (ec : EnumConfig)
  : EnumConfig * outcome :=
  let annotation := strings.TrimSpace annotation in
  if String.eqb annotation "" then (ec, Nil)
  else if negb (strings.HasPrefix annotation "@") then
    (ec, Errorf ("annotation must start with @: " ++ annotation))
  else
    let annotation := slice_from annotation 1 in
    if strings.Contains annotation ":" then
      let parts := strings.SplitN annotation ":" 2 in
      match nth_error parts 0, nth_error parts 1 with
      | Some part0, Some part1 =>
          let key := strings.TrimSpace part0 in
          let value := strings.TrimSpace part1 in
          if String.eqb value "true" || String.eqb value "false" then
            let boolValue :=
              match strconv.ParseBool value with
              | Some b => b
              | None => false
              end in
            setBoolOption key boolValue ec
          else
            let value := strip_quotes value in
            setStringOption key value ec
      | _, _ => (ec, IndexPanic)
      end
    else if strings.Contains annotation "=" then
      let parts := strings.SplitN annotation "=" 2 in
      match nth_error parts 0, nth_error parts 1 with
      | Some part0, Some part1 =>
          let key := strings.TrimSpace part0 in
          let value := strings.TrimSpace part1 in
          let value := strip_quotes value in
          setStringOption key value ec
      | _, _ => (ec, IndexPanic)
      end
    else setBoolOption annotation true ec.

(** *** Vocabulary of the statements *)

Definition assign_bool (f : Field.bool_field) (value : bool) (ec : EnumConfig)
  : EnumConfig :=
  match f with
  | Field.CaseInsensitive =>
      let ec := set_bool Field.CaseInsensitive (mkValue value true) ec in
      if value then set_bool Field.LowercaseLookup (mkValue true true) ec else ec
  | _ => set_bool f (mkValue value true) ec
  end.

Definition perform (a : action) (ec : EnumConfig) : EnumConfig * outcome :=
  match a with
  | Skip => (ec, Nil)
  | Reject msg => (ec, Errorf msg)
  | Crash => (ec, IndexPanic)
  | SetBool key value => setBoolOption key value ec
  | SetString key value => setStringOption key value ec
  end.

Fixpoint parse_all (annotations : list string) (ec : EnumConfig)
  : EnumConfig * list outcome :=
  match annotations with
  | [] => (ec, [])
  | a :: rest =>
      let (ec1, o) := ParseAnnotation a ec in
      let (ec2, os) := parse_all rest ec1 in
      (ec2, o :: os)
  end.

End Gen.

(* ------------------------------------------------------------------ *)
(** ** The two versions side by side *)

(** A slot of the first version represents a slot of the second one:
    the flags agree and, when they are set, so do the values. *)
Definition same_bool (x : Dyn.EnumConfigValue) (y : Gen.EnumConfigValue bool) : Prop :=
  Dyn.Valid x = Gen.Valid y /\
  (Gen.Valid y = true -> Dyn.Value x = Dyn.any_bool (Gen.Value y)).

Definition same_string (x : Dyn.EnumConfigValue) (y : Gen.EnumConfigValue string) : Prop :=
  Dyn.Valid x = Gen.Valid y /\
  (Gen.Valid y = true -> Dyn.Value x = Dyn.any_string (Gen.Value y)).

Definition same_config (cd : Dyn.EnumConfig) (cg : Gen.EnumConfig) : Prop :=
  (forall f, same_bool (Dyn.get_bool f cd) (Gen.get_bool f cg)) /\
  same_string (Dyn.Prefix cd) (Gen.Prefix cg).


(* ------------------------------------------------------------------ *)
(** ** Vocabulary of the further properties *)

(** Every byte of [s] is one of [asciiSpace]. *)
Definition ascii_spaces (s : string) : bool :=
  forallb (fun c => strings.asciiSpace (byte_val c)) (list_ascii_of_string s).

(** A byte below [RuneSelf] that is not one of [asciiSpace]: both loops
    of [TrimSpace] stop on it. *)
Definition ascii_mark (c : ascii) : bool :=
  (byte_val c <? utf8.RuneSelf)%N && negb (strings.asciiSpace (byte_val c)).

(** [s] is not empty, and its first and its last byte are such bytes. *)
Definition marked_ends (s : string) : bool :=
  match get 0 s, get (length s - 1) s with
  | Some c, Some l => ascii_mark c && ascii_mark l
  | _, _ => false
  end.

(** The two quote bytes, and [s] between two quotes [q]. *)
Definition double_quote : ascii := ascii_of_nat 34.
Definition single_quote : ascii := ascii_of_nat 39.
Definition quoted (q : ascii) (s : string) : string := String q (s ++ String q "").

(** The keys of [setBoolOption], as its [case] labels list them. *)
Definition bool_keys : list string :=
  ["noprefix"; "noiota"; "lower"; "nocase"; "marshal"; "sql"; "sqlint"; "flag";
   "names"; "values"; "nocamel"; "ptr"; "sqlnullint"; "sqlnullstr"; "mustparse";
   "forcelower"; "forceupper"; "nocomments"; "noparse"].

(** A slot of the first version that is unset and [nil], or set and
    holding a [bool]; the same for a [string]. *)
Definition Dyn_bool_slot (v : Dyn.EnumConfigValue) : Prop :=
  v = Dyn.zero \/ exists b, v = Dyn.bool_value b.

Definition Dyn_string_slot (v : Dyn.EnumConfigValue) : Prop :=
  v = Dyn.zero \/ exists s, v = Dyn.string_value s.

(** Every boolean field is such a [bool] slot and [Prefix] such a
    [string] slot. *)
Definition Dyn_well_typed (ec : Dyn.EnumConfig) : Prop :=
  (forall f, Dyn_bool_slot (Dyn.get_bool f ec)) /\ Dyn_string_slot (Dyn.Prefix ec).

(** The annotation is accepted: the call returns [nil].  (The
    configuration it is tried on is immaterial: the outcome is settled by
    the text.) *)
Definition Dyn_accepted (annotation : string) : bool :=
  match snd (Dyn.ParseAnnotation annotation Dyn.NewEnumConfig) with
  | Nil => true
  | _ => false
  end.

(** The value is of the kind the field takes: a [bool] for a boolean
    field, a [string] for [Prefix]. *)
Definition Dyn_kind_of_field (f : Dyn.field) (v : Dyn.any) : Prop :=
  match f, v with
  | Dyn.BoolField _, Dyn.any_bool _ => True
  | Dyn.PrefixField, Dyn.any_string _ => True
  | _, _ => False
  end.

(** What a decision assigns to a field, if anything: a value fixed by
    the decision, whatever the configuration holds. *)
Definition Dyn_assigned (a : action) (g : Dyn.field) : option Dyn.EnumConfigValue :=
  match a, g with
  | SetBool key value, Dyn.BoolField gb =>
      match Field.of_key key with
      | Some f =>
          if Field.eqb gb f then Some (Dyn.bool_value value)
          else if Field.eqb f Field.CaseInsensitive
                  && Field.eqb gb Field.LowercaseLookup && value
          then Some (Dyn.bool_value true)
          else None
      | None => None
      end
  | SetString key value, Dyn.PrefixField =>
      if String.eqb key "prefix" then Some (Dyn.string_value value) else None
  | _, _ => None
  end.

(* ------------------------------------------------------------------ *)
(** * Facts about the library functions *)

Lemma substring_all (s : string) : substring 0 (length s) s = s.
Proof.
  induction s as [|c s IH]; simpl; [reflexivity|].
  now rewrite IH.
Qed.

Lemma slice_from_1 (c : ascii) (s : string) : slice_from (String c s) 1 = s.
Proof.
  unfold slice_from. simpl. rewrite Nat.sub_0_r. apply substring_all.
Qed.

Lemma prefix_nil (s : string) : String.prefix "" s = true.
Proof. destruct s; reflexivity. Qed.

Lemma prefix_cons (a b : ascii) (s1 s2 : string) :
  String.prefix (String a s1) (String b s2) =
  if ascii_dec a b then String.prefix s1 s2 else false.
Proof. reflexivity. Qed.

Lemma HasPrefix_at (s : string) :
  strings.HasPrefix s "@" = true -> exists body, s = String "@" body.
Proof.
  unfold strings.HasPrefix. destruct s as [|c s]; [discriminate|].
  rewrite prefix_cons.
  destruct (ascii_dec "@" c) as [<-|]; [|discriminate].
  intros _. now exists s.
Qed.

Lemma HasPrefix_at_cons (body : string) :
  strings.HasPrefix (String "@" body) "@" = true.
Proof.
  unfold strings.HasPrefix. rewrite prefix_cons, prefix_nil.
  destruct (ascii_dec "@" "@"); [reflexivity|contradiction].
Qed.

(** The separators of this package are single bytes. *)
Lemma Index_char_cons (sep c : ascii) (s : string) :
  strings.Index (String c s) (String sep "") =
  if ascii_dec sep c then Some 0
  else match strings.Index s (String sep "") with
       | Some i => Some (S i)
       | None => None
       end.
Proof.
  cbn [strings.Index]. rewrite prefix_cons, prefix_nil.
  destruct (ascii_dec sep c); reflexivity.
Qed.

Lemma Index_char_nil (sep : ascii) : strings.Index "" (String sep "") = None.
Proof. reflexivity. Qed.

(** The first occurrence cuts the string in two, and the separator does
    not occur in the first piece. *)
Lemma Index_char_Some (sep : ascii) (s : string) (m : nat) :
  strings.Index s (String sep "") = Some m ->
  let a := slice s 0 m in
  let b := slice_from s (m + 1) in
  s = a ++ String sep b /\ strings.Index a (String sep "") = None.
Proof.
  revert m. induction s as [|c s IH]; intros m.
  - rewrite Index_char_nil. discriminate.
  - rewrite Index_char_cons. destruct (ascii_dec sep c) as [<-|Hne].
    + intros [= <-]. cbn -[strings.Index]. split.
      * f_equal. symmetry. rewrite Nat.sub_0_r. apply substring_all.
      * reflexivity.
    + destruct (strings.Index s (String sep "")) as [i|] eqn:Hi; [|discriminate].
      intros [= <-]. destruct (IH i eq_refl) as [Hs Ha].
      unfold slice, slice_from in *. cbn -[strings.Index].
      rewrite Nat.sub_0_r in *. split.
      * f_equal. exact Hs.
      * rewrite Index_char_cons. destruct (ascii_dec sep c); [contradiction|].
        now rewrite Ha.
Qed.

Lemma Index_char_app (sep : ascii) (a b : string) :
  strings.Index a (String sep "") = None ->
  strings.Index (a ++ String sep b) (String sep "") = Some (length a).
Proof.
  induction a as [|c a IH].
  - intros _. cbn -[strings.Index]. rewrite Index_char_cons.
    destruct (ascii_dec sep sep); [reflexivity|contradiction].
  - rewrite Index_char_cons. cbn -[strings.Index]. rewrite Index_char_cons.
    destruct (ascii_dec sep c); [discriminate|].
    destruct (strings.Index a (String sep "")) eqn:Ha; [discriminate|].
    intros _. now rewrite IH.
Qed.

Lemma slice_app_left (a x : string) : slice (a ++ x) 0 (length a) = a.
Proof.
  unfold slice. rewrite Nat.sub_0_r.
  induction a as [|c a IH]; simpl.
  - destruct x; reflexivity.
  - now rewrite IH.
Qed.

Lemma slice_from_app_right (sep : ascii) (a b : string) :
  slice_from (a ++ String sep b) (length a + 1) = b.
Proof.
  unfold slice_from.
  induction a as [|c a IH]; simpl.
  - rewrite Nat.sub_0_r. apply substring_all.
  - exact IH.
Qed.

(** [SplitN(s, sep, 2)] on a string that holds the separator: the two
    pieces around its first occurrence. *)
Lemma SplitN_char_app (sep : ascii) (a b : string) :
  strings.Index a (String sep "") = None ->
  strings.SplitN (a ++ String sep b) (String sep "") 2 = [a; b].
Proof.
  intros Ha. unfold strings.SplitN.
  change (2 =? 0) with false. cbv iota.
  change (String.eqb (String sep "") "") with false. cbv iota.
  assert (Hlen : (length (a ++ String sep b) + 1 <? 2) = false).
  { apply Nat.ltb_ge. destruct a; simpl; lia. }
  rewrite Hlen. cbn [Nat.sub strings.genSplit_loop].
  rewrite (Index_char_app sep a b Ha).
  cbn [length]. now rewrite slice_app_left, slice_from_app_right.
Qed.

Lemma Contains_char_split (sep : ascii) (s : string) :
  strings.Contains s (String sep "") = true ->
  exists a b, s = a ++ String sep b /\ strings.Index a (String sep "") = None.
Proof.
  unfold strings.Contains.
  destruct (strings.Index s (String sep "")) as [m|] eqn:Hm; [|discriminate].
  intros _. destruct (Index_char_Some sep s m Hm) as [Hs Ha]. eauto.
Qed.

Lemma Contains_char_app (sep : ascii) (a b : string) :
  strings.Index a (String sep "") = None ->
  strings.Contains (a ++ String sep b) (String sep "") = true.
Proof.
  intros Ha. unfold strings.Contains. now rewrite (Index_char_app sep a b Ha).
Qed.

(* ------------------------------------------------------------------ *)
(** * The decision [ParseAnnotation] takes *)

Lemma Dyn_ParseAnnotation_action (annotation : string) (ec : Dyn.EnumConfig) :
  Dyn.ParseAnnotation annotation ec = Dyn.perform (directive_action annotation) ec.
Proof.
  unfold Dyn.ParseAnnotation, directive_action. cbv zeta.
  repeat (try reflexivity; split_on_test).
Qed.

Lemma Gen_ParseAnnotation_action (annotation : string) (ec : Gen.EnumConfig) :
  Gen.ParseAnnotation annotation ec = Gen.perform (directive_action annotation) ec.
Proof.
  unfold Gen.ParseAnnotation, directive_action. cbv zeta.
  repeat (try reflexivity; split_on_test).
Qed.

Lemma at_body_not_empty (body : string) : String.eqb (String "@" body) "" = false.
Proof. reflexivity. Qed.

(** The decision on a directive whose body holds a colon. *)
Lemma action_colon (d k v : string) :
  strings.TrimSpace d = "@" ++ k ++ ":" ++ v ->
  strings.Index k ":" = None ->
  directive_action d =
  if String.eqb (strings.TrimSpace v) "true" then SetBool (strings.TrimSpace k) true
  else if String.eqb (strings.TrimSpace v) "false" then SetBool (strings.TrimSpace k) false
  else SetString (strings.TrimSpace k) (strip_quotes (strings.TrimSpace v)).
Proof.
  intros Hd Hk. unfold directive_action. cbv zeta. rewrite Hd.
  change ("@" ++ k ++ ":" ++ v) with (String "@" (k ++ String ":" v)).
  rewrite at_body_not_empty, HasPrefix_at_cons, slice_from_1. cbn [negb].
  rewrite (Contains_char_app ":" k v Hk), (SplitN_char_app ":" k v Hk).
  cbn [nth_error].
  destruct (String.eqb_spec (strings.TrimSpace v) "true") as [->|_]; [reflexivity|].
  destruct (String.eqb_spec (strings.TrimSpace v) "false") as [->|_]; reflexivity.
Qed.

(** The decision on a directive whose body holds [=] and no colon. *)
Lemma action_equals (d k v : string) :
  strings.TrimSpace d = "@" ++ k ++ "=" ++ v ->
  strings.Contains (k ++ "=" ++ v) ":" = false ->
  strings.Index k "=" = None ->
  directive_action d = SetString (strings.TrimSpace k) (strip_quotes (strings.TrimSpace v)).
Proof.
  intros Hd Hc Hk. unfold directive_action. cbv zeta. rewrite Hd.
  change ("@" ++ k ++ "=" ++ v) with (String "@" (k ++ String "=" v)).
  change (k ++ "=" ++ v) with (k ++ String "=" v) in Hc.
  rewrite at_body_not_empty, HasPrefix_at_cons, slice_from_1. cbn [negb].
  rewrite Hc, (Contains_char_app "=" k v Hk), (SplitN_char_app "=" k v Hk).
  reflexivity.
Qed.

(** The decision on a directive whose body holds neither. *)
Lemma action_bare (d body : string) :
  strings.TrimSpace d = "@" ++ body ->
  strings.Contains body ":" = false ->
  strings.Contains body "=" = false ->
  directive_action d = SetBool body true.
Proof.
  intros Hd Hc He. unfold directive_action. cbv zeta. rewrite Hd.
  change ("@" ++ body) with (String "@" body).
  rewrite at_body_not_empty, HasPrefix_at_cons, slice_from_1. cbn [negb].
  now rewrite Hc, He.
Qed.

Lemma directive_action_reading (d : string) : reading d (directive_action d).
Proof.
  destruct (String.eqb_spec (strings.TrimSpace d) "") as [He|Hne].
  - unfold directive_action. cbv zeta. rewrite He. cbn. now constructor.
  - destruct (strings.HasPrefix (strings.TrimSpace d) "@") eqn:Hp.
    + destruct (HasPrefix_at _ Hp) as [body Hb].
      destruct (strings.Contains body ":") eqn:Hc.
      * destruct (Contains_char_split ":" body Hc) as (k & v & -> & Hk).
        rewrite (action_colon d k v Hb Hk). now apply read_colon.
      * destruct (strings.Contains body "=") eqn:Hq.
        -- destruct (Contains_char_split "=" body Hq) as (k & v & -> & Hk).
           rewrite (action_equals d k v Hb Hc Hk). now apply read_equals.
        -- rewrite (action_bare d body Hb Hc Hq). now apply read_bare.
    + unfold directive_action. cbv zeta.
      destruct (String.eqb_spec (strings.TrimSpace d) ""); [contradiction|].
      rewrite Hp. cbn [negb]. now constructor.
Qed.

Lemma directive_action_no_crash (d : string) : directive_action d <> Crash.
Proof.
  destruct (directive_action_reading d); try discriminate.
  repeat split_on_test; discriminate.
Qed.

(* ------------------------------------------------------------------ *)
(** * The option setters *)

Lemma Field_of_key_key (f : Field.bool_field) : Field.of_key (Field.key f) = Some f.
Proof. destruct f; reflexivity. Qed.

Lemma Field_of_key_Some (k : string) (f : Field.bool_field) :
  Field.of_key k = Some f -> k = Field.key f.
Proof.
  unfold Field.of_key.
  repeat match goal with
         | |- context [String.eqb k ?lit] =>
             destruct (String.eqb_spec k lit) as [->|_];
             [intros [= <-]; reflexivity|]
         end.
  discriminate.
Qed.

Lemma Field_eqb_eq (f g : Field.bool_field) : Field.eqb f g = true <-> f = g.
Proof. split; [destruct f, g; (reflexivity || discriminate)|intros <-; now destruct f]. Qed.

Lemma Field_eqb_refl (f : Field.bool_field) : Field.eqb f f = true.
Proof. now destruct f. Qed.

Lemma Field_eqb_neq (f g : Field.bool_field) : f <> g -> Field.eqb f g = false.
Proof.
  intros Hne. destruct (Field.eqb f g) eqn:E; [|reflexivity].
  apply Field_eqb_eq in E. contradiction.
Qed.

Section DynSetters.

Variable ec : Dyn.EnumConfig.

Lemma Dyn_setBoolOption_of_key (key : string) (value : bool) :
  Dyn.setBoolOption key value ec =
  match Field.of_key key with
  | Some f => (Dyn.assign_bool f value ec, Nil)
  | None => (ec, Errorf ("unknown annotation: @" ++ key))
  end.
Proof.
  unfold Dyn.setBoolOption, Field.of_key.
  repeat match goal with
         | |- context [String.eqb key ?lit] => destruct (String.eqb key lit)
         end; try reflexivity.
Qed.

Lemma Dyn_get_set_bool_same (f : Field.bool_field) (v : Dyn.EnumConfigValue) :
  Dyn.get_bool f (Dyn.set_bool f v ec) = v.
Proof. destruct f; reflexivity. Qed.

Lemma Dyn_get_set_bool_other (f g : Field.bool_field) (v : Dyn.EnumConfigValue) :
  g <> f -> Dyn.get_bool g (Dyn.set_bool f v ec) = Dyn.get_bool g ec.
Proof. intros Hne. destruct f, g; try reflexivity; contradiction. Qed.

Lemma Dyn_Prefix_set_bool (f : Field.bool_field) (v : Dyn.EnumConfigValue) :
  Dyn.Prefix (Dyn.set_bool f v ec) = Dyn.Prefix ec.
Proof. reflexivity. Qed.

Lemma Dyn_get_bool_set_Prefix (f : Field.bool_field) (v : Dyn.EnumConfigValue) :
  Dyn.get_bool f (Dyn.set_Prefix v ec) = Dyn.get_bool f ec.
Proof. destruct f; reflexivity. Qed.

(** What a case of [setBoolOption] leaves in each boolean field. *)
Lemma Dyn_get_assign_bool (f g : Field.bool_field) (value : bool) :
  Dyn.get_bool g (Dyn.assign_bool f value ec) =
  if Field.eqb g f then Dyn.bool_value value
  else if Field.eqb f Field.CaseInsensitive && Field.eqb g Field.LowercaseLookup && value
       then Dyn.bool_value true
       else Dyn.get_bool g ec.
Proof. destruct f, g, value; reflexivity. Qed.

Lemma Dyn_Prefix_assign_bool (f : Field.bool_field) (value : bool) :
  Dyn.Prefix (Dyn.assign_bool f value ec) = Dyn.Prefix ec.
Proof. destruct f, value; reflexivity. Qed.

End DynSetters.

Lemma Dyn_assign_bool_twice (f : Field.bool_field) (value : bool) (ec : Dyn.EnumConfig) :
  Dyn.assign_bool f value (Dyn.assign_bool f value ec) = Dyn.assign_bool f value ec.
Proof. destruct f, value; reflexivity. Qed.

Lemma Dyn_perform_twice (a : action) (ec : Dyn.EnumConfig) :
  Dyn.perform a (fst (Dyn.perform a ec)) = Dyn.perform a ec.
Proof.
  destruct a as [| | |key value|key value]; try reflexivity.
  - cbn [Dyn.perform]. rewrite !Dyn_setBoolOption_of_key.
    destruct (Field.of_key key) as [f|]; cbn [fst]; [|reflexivity].
    now rewrite Dyn_assign_bool_twice.
  - cbn [Dyn.perform]. unfold Dyn.setStringOption.
    destruct (String.eqb key "prefix"); reflexivity.
Qed.

Lemma Dyn_perform_failure (a : action) (ec : Dyn.EnumConfig) :
  snd (Dyn.perform a ec) <> Nil -> fst (Dyn.perform a ec) = ec.
Proof.
  destruct a as [| | |key value|key value]; try reflexivity.
  - cbn [Dyn.perform]. rewrite Dyn_setBoolOption_of_key.
    destruct (Field.of_key key); cbn; [contradiction|reflexivity].
  - cbn [Dyn.perform]. unfold Dyn.setStringOption.
    destruct (String.eqb key "prefix"); cbn; [contradiction|reflexivity].
Qed.

(** The index [parts[1]] is always in range. *)
Lemma ParseAnnotation_never_panics (annotation : string) (ec : Dyn.EnumConfig) :
  snd (Dyn.ParseAnnotation annotation ec) <> IndexPanic.
Proof.
  rewrite Dyn_ParseAnnotation_action.
  pose proof (directive_action_no_crash annotation) as Hc.
  destruct (directive_action annotation) as [| | |key value|key value];
    cbn [Dyn.perform snd]; try discriminate; try contradiction.
  - rewrite Dyn_setBoolOption_of_key. destruct (Field.of_key key); discriminate.
  - unfold Dyn.setStringOption. destruct (String.eqb key "prefix"); discriminate.
Qed.

(* ------------------------------------------------------------------ *)
(** * The nocase cascade *)

(** C3.  On every configuration, [@nocase] and [@nocase:true] leave both
    [CaseInsensitive] and [LowercaseLookup] holding (true, set) and touch
    no other field; [@nocase:false] leaves [CaseInsensitive] holding
    (false, set), touches no other field and, in particular, leaves
    [LowercaseLookup] as it was. *)
Theorem C3_nocase_cascade (ec : Dyn.EnumConfig) :
  let on := Dyn.set_bool Field.LowercaseLookup (Dyn.bool_value true)
              (Dyn.set_bool Field.CaseInsensitive (Dyn.bool_value true) ec) in
  let off := Dyn.set_bool Field.CaseInsensitive (Dyn.bool_value false) ec in
  (Dyn.ParseAnnotation "@nocase" ec = (on, Nil) /\
   Dyn.ParseAnnotation "@nocase:true" ec = (on, Nil) /\
   Dyn.ParseAnnotation "@nocase:false" ec = (off, Nil)) /\
  (Dyn.CaseInsensitive on = Dyn.bool_value true /\
   Dyn.LowercaseLookup on = Dyn.bool_value true) /\
  (Dyn.CaseInsensitive off = Dyn.bool_value false /\
   Dyn.LowercaseLookup off = Dyn.LowercaseLookup ec).
Proof.
  cbv zeta. split; [split; [|split]|split; split; reflexivity].
  - rewrite Dyn_ParseAnnotation_action.
    replace (directive_action "@nocase") with (SetBool "nocase" true)
      by (vm_compute; reflexivity).
    reflexivity.
  - rewrite Dyn_ParseAnnotation_action.
    replace (directive_action "@nocase:true") with (SetBool "nocase" true)
      by (vm_compute; reflexivity).
    reflexivity.
  - rewrite Dyn_ParseAnnotation_action.
    replace (directive_action "@nocase:false") with (SetBool "nocase" false)
      by (vm_compute; reflexivity).
    reflexivity.
Qed.

(* ------------------------------------------------------------------ *)
(** * Failing directives *)

Lemma directive_action_Reject (d msg : string) :
  directive_action d = Reject msg ->
  msg = "annotation must start with @: " ++ strings.TrimSpace d /\
  strings.HasPrefix (strings.TrimSpace d) "@" = false.
Proof.
  intros H. pose proof (directive_action_reading d) as R. rewrite H in R.
  inversion R as [| Hne Hp Hm | k v Hd Hk Hm | |]; subst.
  - now split.
  - exfalso. revert Hm. repeat split_on_test; discriminate.
Qed.

(** C4.  When [ParseAnnotation] returns an error, the configuration is
    what it was before the call, and the error is one of three: the
    missing marker, a key unknown to [setBoolOption], a key unknown to
    [setStringOption]. *)
Theorem C4_error_leaves_config (d : string) (ec : Dyn.EnumConfig) (msg : string) :
  snd (Dyn.ParseAnnotation d ec) = Errorf msg ->
  fst (Dyn.ParseAnnotation d ec) = ec /\
  ((strings.HasPrefix (strings.TrimSpace d) "@" = false /\
    msg = "annotation must start with @: " ++ strings.TrimSpace d) \/
   (exists key, Field.of_key key = None /\ msg = "unknown annotation: @" ++ key) \/
   (exists key value, key <> "prefix" /\
      msg = "unknown annotation with value: @" ++ key ++ "=" ++ value)).
Proof.
  rewrite Dyn_ParseAnnotation_action. intros H. split.
  - apply Dyn_perform_failure. rewrite H. discriminate.
  - destruct (directive_action d) as [| m | |key value|key value] eqn:Ha;
      cbn [Dyn.perform snd] in H; try discriminate.
    + injection H as ->. left.
      destruct (directive_action_Reject d msg Ha) as [-> Hp]. now split.
    + right; left. rewrite Dyn_setBoolOption_of_key in H.
      destruct (Field.of_key key) eqn:Hk; [discriminate|].
      injection H as <-. now exists key.
    + right; right. unfold Dyn.setStringOption in H.
      destruct (String.eqb_spec key "prefix"); [discriminate|].
      injection H as <-. now exists key, value.
Qed.

Lemma C4_error_leaves_config_witness :
  fst (Dyn.ParseAnnotation "@bogus" Dyn.NewEnumConfig) = Dyn.NewEnumConfig.
Proof.
  apply (C4_error_leaves_config "@bogus" Dyn.NewEnumConfig "unknown annotation: @bogus").
  vm_compute. reflexivity.
Defined.

(* ------------------------------------------------------------------ *)
(** * Applying a directive twice *)

(** C6.  For every annotation and every configuration, a second
    application of the annotation returns what the first returned and
    leaves the configuration the first one left. *)
Theorem C6_idempotent (d : string) (ec : Dyn.EnumConfig) :
  Dyn.ParseAnnotation d (fst (Dyn.ParseAnnotation d ec)) = Dyn.ParseAnnotation d ec.
Proof.
  rewrite !Dyn_ParseAnnotation_action. apply Dyn_perform_twice.
Qed.

(* ------------------------------------------------------------------ *)
(** * White space after the marker *)

(** C8.  The key of the two forms with a separator is trimmed, the key of
    the bare form is not: [@ marshal:true] sets [Marshal] as
    [@marshal:true] does and [@ prefix=My] sets [Prefix] as [@prefix=My]
    does, but [@ marshal] is refused as the unknown key [ marshal] where
    [@marshal] sets [Marshal]. *)
Theorem C8_bare_key_not_trimmed (ec : Dyn.EnumConfig) :
  Dyn.ParseAnnotation "@ marshal" ec = (ec, Errorf "unknown annotation: @ marshal") /\
  Dyn.ParseAnnotation "@marshal" ec =
    (Dyn.set_bool Field.Marshal (Dyn.bool_value true) ec, Nil) /\
  Dyn.ParseAnnotation "@ marshal:true" ec = Dyn.ParseAnnotation "@marshal:true" ec /\
  Dyn.ParseAnnotation "@ marshal:true" ec =
    (Dyn.set_bool Field.Marshal (Dyn.bool_value true) ec, Nil) /\
  Dyn.ParseAnnotation "@ prefix=My" ec = Dyn.ParseAnnotation "@prefix=My" ec /\
  Dyn.ParseAnnotation "@ prefix=My" ec = (Dyn.set_Prefix (Dyn.string_value "My") ec, Nil).
Proof.
  rewrite !Dyn_ParseAnnotation_action.
  replace (directive_action "@ marshal") with (SetBool " marshal" true)
    by (vm_compute; reflexivity).
  replace (directive_action "@marshal") with (SetBool "marshal" true)
    by (vm_compute; reflexivity).
  replace (directive_action "@ marshal:true") with (SetBool "marshal" true)
    by (vm_compute; reflexivity).
  replace (directive_action "@marshal:true") with (SetBool "marshal" true)
    by (vm_compute; reflexivity).
  replace (directive_action "@ prefix=My") with (SetString "prefix" "My")
    by (vm_compute; reflexivity).
  replace (directive_action "@prefix=My") with (SetString "prefix" "My")
    by (vm_compute; reflexivity).
  repeat split.
Qed.

(* ------------------------------------------------------------------ *)
(** * The grammar and the decision *)

(** A successful decision reads the directive in one of the three forms. *)
Lemma action_form (d : string) :
  match directive_action d with
  | SetBool key b => Dyn.directive_form (strings.TrimSpace d) key (Dyn.any_bool b)
  | SetString key s => Dyn.directive_form (strings.TrimSpace d) key (Dyn.any_string s)
  | _ => True
  end.
Proof.
  destruct (directive_action_reading d) as [| | k v Hd Hk | k v Hd Hc Hk | body Hd Hc He];
    try exact I; rewrite Hd.
  - destruct (String.eqb_spec (strings.TrimSpace v) "true") as [Ht|Ht].
    + now apply (Dyn.key_colon_bool k v true).
    + destruct (String.eqb_spec (strings.TrimSpace v) "false") as [Hf|Hf].
      * now apply (Dyn.key_colon_bool k v false).
      * now apply Dyn.key_colon_string.
  - now apply Dyn.key_equals.
  - now apply Dyn.bare_key.
Qed.

(** A directive in one of the three forms is decided as its form says. *)
Lemma form_action (d key : string) (v : Dyn.any) :
  Dyn.directive_form (strings.TrimSpace d) key v ->
  (exists b, v = Dyn.any_bool b /\ directive_action d = SetBool key b) \/
  (exists s, v = Dyn.any_string s /\ directive_action d = SetString key s).
Proof.
  intros H. remember (strings.TrimSpace d) as t eqn:Ht. symmetry in Ht.
  destruct H as [body Hc He | k v value Hk Hv | k v Hk Ht' Hf' | k v Hk Hc].
  - left. exists true. split; [reflexivity|]. now apply action_bare.
  - left. exists value. split; [reflexivity|].
    rewrite (action_colon d k v Ht Hk), Hv. now destruct value.
  - right. eexists. split; [reflexivity|].
    rewrite (action_colon d k v Ht Hk).
    apply String.eqb_neq in Ht', Hf'. now rewrite Ht', Hf'.
  - right. eexists. split; [reflexivity|]. now apply action_equals.
Qed.

(* ------------------------------------------------------------------ *)
(** * One directive on a fresh configuration *)

Lemma Dyn_setBoolOption_fresh (key : string) (value : bool) (ec' : Dyn.EnumConfig) :
  Dyn.setBoolOption key value Dyn.NewEnumConfig = (ec', Nil) ->
  ((key, Dyn.any_bool value) = ("nocase", Dyn.any_bool true) /\ Dyn.sets_nocase_pair ec') \/
  ((key, Dyn.any_bool value) <> ("nocase", Dyn.any_bool true) /\
   exists f, Dyn.key_of f = key /\ Dyn.sets_only f (Dyn.any_bool value) ec').
Proof.
  rewrite Dyn_setBoolOption_of_key.
  destruct (Field.of_key key) as [f|] eqn:Hk; [|discriminate].
  apply Field_of_key_Some in Hk. subst key. intros [= <-].
  destruct f, value;
    first
      [ left; split; [reflexivity|];
        repeat split; intros [[]|] H1 H2; try reflexivity; contradiction
      | right; split; [discriminate|];
        eexists (Dyn.BoolField _); split; [reflexivity|];
        split; [reflexivity|];
        intros [[]|] H1; try reflexivity; contradiction ].
Qed.

Lemma Dyn_setStringOption_fresh (key value : string) (ec' : Dyn.EnumConfig) :
  Dyn.setStringOption key value Dyn.NewEnumConfig = (ec', Nil) ->
  key = "prefix" /\ Dyn.sets_only Dyn.PrefixField (Dyn.any_string value) ec'.
Proof.
  unfold Dyn.setStringOption.
  destruct (String.eqb_spec key "prefix") as [->|]; [|discriminate].
  intros [= <-]. split; [reflexivity|]. split; [reflexivity|].
  intros [[]|] H; try reflexivity; contradiction.
Qed.

(** C1 as stated fails: [@nocase] is a bare key and succeeds
    on a fresh configuration, and sets two fields. *)
Lemma C1_counterexample :
  Dyn.directive_form (strings.TrimSpace "@nocase") "nocase" (Dyn.any_bool true) /\
  snd (Dyn.ParseAnnotation "@nocase" Dyn.NewEnumConfig) = Nil /\
  ~ Dyn.sets_exactly_one (fst (Dyn.ParseAnnotation "@nocase" Dyn.NewEnumConfig)).
Proof.
  split; [|split].
  - replace (strings.TrimSpace "@nocase") with ("@" ++ "nocase")
      by (vm_compute; reflexivity).
    apply Dyn.bare_key; vm_compute; reflexivity.
  - vm_compute. reflexivity.
  - intros [f [_ Hother]].
    set (ec := fst (Dyn.ParseAnnotation "@nocase" Dyn.NewEnumConfig)) in *.
    assert (Hci : Dyn.Valid (Dyn.get (Dyn.BoolField Field.CaseInsensitive) ec) = true)
      by (vm_compute; reflexivity).
    assert (Hll : Dyn.Valid (Dyn.get (Dyn.BoolField Field.LowercaseLookup) ec) = true)
      by (vm_compute; reflexivity).
    destruct f as [[]|];
      first [ rewrite Hother in Hci by discriminate; discriminate Hci
            | rewrite Hother in Hll by discriminate; discriminate Hll ].
Qed.

(** C1, amended.  A directive that is not empty once trimmed and that
    [ParseAnnotation] accepts on a fresh configuration has one of the
    three forms, with a key and a value; the field of that key is then
    set and holds the value, and every other field is the zero value --
    except for the key [nocase] with the value true, where
    [CaseInsensitive] and [LowercaseLookup] are both set and hold true,
    and every other field is the zero value. *)
Theorem C1_one_field_or_nocase_pair (d : string) (ec' : Dyn.EnumConfig) :
  Dyn.ParseAnnotation d Dyn.NewEnumConfig = (ec', Nil) ->
  strings.TrimSpace d <> "" ->
  exists key v,
    Dyn.directive_form (strings.TrimSpace d) key v /\
    (((key, v) = ("nocase", Dyn.any_bool true) /\ Dyn.sets_nocase_pair ec') \/
     ((key, v) <> ("nocase", Dyn.any_bool true) /\
      exists f, Dyn.key_of f = key /\ Dyn.sets_only f v ec')).
Proof.
  rewrite Dyn_ParseAnnotation_action. intros H Hne.
  pose proof (action_form d) as Hform.
  destruct (directive_action d) as [| m | |key value|key value] eqn:Ha;
    cbn [Dyn.perform] in H; try discriminate.
  - exfalso. pose proof (directive_action_reading d) as R. rewrite Ha in R.
    inversion R as [He | | k v Hd Hk Hm | |]; [contradiction|].
    revert Hm. repeat split_on_test; discriminate.
  - exists key, (Dyn.any_bool value). split; [exact Hform|].
    now apply Dyn_setBoolOption_fresh.
  - exists key, (Dyn.any_string value). split; [exact Hform|].
    destruct (Dyn_setStringOption_fresh key value ec' H) as [-> Hs].
    right. split; [discriminate|]. now exists Dyn.PrefixField.
Qed.

Lemma C1_one_field_or_nocase_pair_witness :
  exists key v,
    Dyn.directive_form (strings.TrimSpace "@marshal:false") key v /\
    (((key, v) = ("nocase", Dyn.any_bool true) /\
      Dyn.sets_nocase_pair
        (Dyn.set_bool Field.Marshal (Dyn.bool_value false) Dyn.NewEnumConfig)) \/
     ((key, v) <> ("nocase", Dyn.any_bool true) /\
      exists f, Dyn.key_of f = key /\
        Dyn.sets_only f v
          (Dyn.set_bool Field.Marshal (Dyn.bool_value false) Dyn.NewEnumConfig))).
Proof.
  apply (C1_one_field_or_nocase_pair "@marshal:false").
  - vm_compute. reflexivity.
  - vm_compute. discriminate.
Defined.

(* ------------------------------------------------------------------ *)
(** * The last directive for a key wins *)

Lemma Field_key_not_prefix (f : Field.bool_field) :
  String.eqb (Field.key f) "prefix" = false.
Proof. destruct f; reflexivity. Qed.

(** What a successful decision for the key of field [f] leaves in [f],
    whatever the configuration was. *)
Lemma Dyn_perform_key (f : Dyn.field) (v : Dyn.any) (a : action) (ec : Dyn.EnumConfig) :
  (exists b, v = Dyn.any_bool b /\ a = SetBool (Dyn.key_of f) b) \/
  (exists s, v = Dyn.any_string s /\ a = SetString (Dyn.key_of f) s) ->
  snd (Dyn.perform a ec) = Nil ->
  Dyn.get f (fst (Dyn.perform a ec)) = Dyn.mkValue v true.
Proof.
  intros [(b & -> & ->)|(s & -> & ->)]; cbn [Dyn.perform].
  - rewrite Dyn_setBoolOption_of_key. destruct f as [bf|]; cbn [Dyn.key_of].
    + rewrite Field_of_key_key. intros _. cbn [fst Dyn.get].
      now rewrite Dyn_get_assign_bool, Field_eqb_refl.
    + cbn. discriminate.
  - unfold Dyn.setStringOption. destruct f as [bf|]; cbn [Dyn.key_of].
    + rewrite Field_key_not_prefix. cbn. discriminate.
    + reflexivity.
Qed.

(** A decision for the key of field [f] with a value of the kind of [f]
    is carried out: the setter returns [nil]. *)
Lemma Dyn_perform_accepts (f : Dyn.field) (v : Dyn.any) (a : action) (ec : Dyn.EnumConfig) :
  Dyn_kind_of_field f v ->
  (exists b, v = Dyn.any_bool b /\ a = SetBool (Dyn.key_of f) b) \/
  (exists s, v = Dyn.any_string s /\ a = SetString (Dyn.key_of f) s) ->
  snd (Dyn.perform a ec) = Nil.
Proof.
  intros Hkind [(b & -> & ->)|(s & -> & ->)]; destruct f as [bf|];
    try contradiction; cbn [Dyn.perform Dyn.key_of].
  - now rewrite Dyn_setBoolOption_of_key, Field_of_key_key.
  - reflexivity.
Qed.

(** C5.  Take two directives for the key of one field, in any of the
    forms, the second with a value of the kind of the field (a boolean
    for a boolean key, a string for [prefix]).  On every configuration
    the second directive is accepted after the first, the field is then
    set and holds the value of the second directive, and that is also
    what the second directive alone leaves there: the earlier value is
    overwritten.  So [@marshal:true] and then [@marshal:false], on any
    configuration, leave [Marshal] set and false. *)
Theorem C5_last_directive_wins
  (f : Dyn.field) (d1 d2 : string) (v1 v2 : Dyn.any) (ec : Dyn.EnumConfig) :
  Dyn.directive_form (strings.TrimSpace d1) (Dyn.key_of f) v1 ->
  Dyn.directive_form (strings.TrimSpace d2) (Dyn.key_of f) v2 ->
  Dyn_kind_of_field f v2 ->
  let ec1 := fst (Dyn.ParseAnnotation d1 ec) in
  snd (Dyn.ParseAnnotation d2 ec1) = Nil /\
  Dyn.get f (fst (Dyn.ParseAnnotation d2 ec1)) = Dyn.mkValue v2 true /\
  Dyn.get f (fst (Dyn.ParseAnnotation d2 ec1)) = Dyn.get f (fst (Dyn.ParseAnnotation d2 ec)).
Proof.
  intros _ H2 Hkind ec1. rewrite !Dyn_ParseAnnotation_action.
  apply form_action in H2.
  pose proof (Dyn_perform_accepts f v2 _ ec1 Hkind H2) as Hok.
  pose proof (Dyn_perform_accepts f v2 _ ec Hkind H2) as Hok'.
  rewrite (Dyn_perform_key f v2 _ ec1 H2 Hok), (Dyn_perform_key f v2 _ ec H2 Hok').
  now repeat split.
Qed.

(** The instance the specification gives: [@marshal:true], then
    [@marshal:false]. *)
Lemma marshal_true_then_false (ec : Dyn.EnumConfig) :
  Dyn.parse_all ["@marshal:true"; "@marshal:false"] ec =
  (Dyn.set_bool Field.Marshal (Dyn.bool_value false) ec, [Nil; Nil]).
Proof.
  cbn [Dyn.parse_all]. rewrite !Dyn_ParseAnnotation_action.
  replace (directive_action "@marshal:true") with (SetBool "marshal" true)
    by (vm_compute; reflexivity).
  replace (directive_action "@marshal:false") with (SetBool "marshal" false)
    by (vm_compute; reflexivity).
  reflexivity.
Qed.

Lemma C5_last_directive_wins_witness :
  let ec1 := fst (Dyn.ParseAnnotation "@prefix:'Old'" Dyn.NewEnumConfig) in
  snd (Dyn.ParseAnnotation "@prefix=My" ec1) = Nil /\
  Dyn.Prefix (fst (Dyn.ParseAnnotation "@prefix=My" ec1)) = Dyn.string_value "My" /\
  Dyn.Prefix (fst (Dyn.ParseAnnotation "@prefix=My" ec1)) =
  Dyn.Prefix (fst (Dyn.ParseAnnotation "@prefix=My" Dyn.NewEnumConfig)).
Proof.
  apply (C5_last_directive_wins Dyn.PrefixField
           "@prefix:'Old'" "@prefix=My" (Dyn.any_string "Old") (Dyn.any_string "My")
           Dyn.NewEnumConfig).
  - replace (strings.TrimSpace "@prefix:'Old'") with ("@" ++ "prefix" ++ ":" ++ "'Old'")
      by (vm_compute; reflexivity).
    apply (Dyn.key_colon_string "prefix" "'Old'"); vm_compute;
      (reflexivity || discriminate).
  - replace (strings.TrimSpace "@prefix=My") with ("@" ++ "prefix" ++ "=" ++ "My")
      by (vm_compute; reflexivity).
    apply (Dyn.key_equals "prefix" "My"); vm_compute; reflexivity.
  - exact I.
Defined.

(* ------------------------------------------------------------------ *)
(** * One form for each directive, by priority *)

(** C7.  Let the trimmed directive be the marker followed by [body].
    - If [body] holds a colon, it is cut at its first colon into [k] and
      [v], whether or not it also holds [=]: the value [true] or [false]
      goes to [setBoolOption], any other value to [setStringOption].
    - If [body] holds no colon but holds [=], it is cut at its first [=]
      and goes to [setStringOption] alone; with the key of a boolean
      field the call fails with the unknown-annotation error and the
      configuration is unchanged.
    - Otherwise [body] goes to [setBoolOption] with the value true. *)
Theorem C7_one_form_by_priority (d body : string) (ec : Dyn.EnumConfig) :
  strings.TrimSpace d = "@" ++ body ->
  (strings.Contains body ":" = true ->
   exists k v,
     body = k ++ ":" ++ v /\ strings.Index k ":" = None /\
     Dyn.ParseAnnotation d ec =
     if String.eqb (strings.TrimSpace v) "true"
     then Dyn.setBoolOption (strings.TrimSpace k) true ec
     else if String.eqb (strings.TrimSpace v) "false"
     then Dyn.setBoolOption (strings.TrimSpace k) false ec
     else Dyn.setStringOption (strings.TrimSpace k) (strip_quotes (strings.TrimSpace v)) ec) /\
  (strings.Contains body ":" = false ->
   strings.Contains body "=" = true ->
   exists k v,
     body = k ++ "=" ++ v /\ strings.Index k "=" = None /\
     Dyn.ParseAnnotation d ec =
     Dyn.setStringOption (strings.TrimSpace k) (strip_quotes (strings.TrimSpace v)) ec /\
     forall f : Field.bool_field,
       strings.TrimSpace k = Field.key f ->
       Dyn.ParseAnnotation d ec =
       (ec, Errorf ("unknown annotation with value: @" ++ Field.key f ++ "="
                    ++ strip_quotes (strings.TrimSpace v)))) /\
  (strings.Contains body ":" = false ->
   strings.Contains body "=" = false ->
   Dyn.ParseAnnotation d ec = Dyn.setBoolOption body true ec).
Proof.
  intros Hd. rewrite Dyn_ParseAnnotation_action. split; [|split].
  - intros Hc. destruct (Contains_char_split ":" body Hc) as (k & v & -> & Hk).
    exists k, v. split; [reflexivity|]. split; [exact Hk|].
    rewrite (action_colon d k v Hd Hk).
    repeat split_on_test; reflexivity.
  - intros Hc He. destruct (Contains_char_split "=" body He) as (k & v & -> & Hk).
    exists k, v. split; [reflexivity|]. split; [exact Hk|].
    rewrite (action_equals d k v Hd Hc Hk). split; [reflexivity|].
    intros f ->. cbn [Dyn.perform]. unfold Dyn.setStringOption.
    now rewrite Field_key_not_prefix.
  - intros Hc He. now rewrite (action_bare d body Hd Hc He).
Qed.

(** The example the specification gives: [@marshal=true] is refused, and a value
    that holds [=] after a colon is a value of the colon form. *)
Lemma marshal_equals_true_refused (ec : Dyn.EnumConfig) :
  Dyn.ParseAnnotation "@marshal=true" ec =
    (ec, Errorf "unknown annotation with value: @marshal=true") /\
  Dyn.ParseAnnotation "@prefix:a=b" ec = (Dyn.set_Prefix (Dyn.string_value "a=b") ec, Nil) /\
  Dyn.ParseAnnotation "@prefix=a:b" ec =
    (ec, Errorf "unknown annotation with value: @prefix=a=b").
Proof.
  rewrite !Dyn_ParseAnnotation_action.
  replace (directive_action "@marshal=true") with (SetString "marshal" "true")
    by (vm_compute; reflexivity).
  replace (directive_action "@prefix:a=b") with (SetString "prefix" "a=b")
    by (vm_compute; reflexivity).
  replace (directive_action "@prefix=a:b") with (SetString "prefix=a" "b")
    by (vm_compute; reflexivity).
  repeat split.
Qed.

Lemma C7_one_form_by_priority_witness :
  exists k v,
    "marshal=true" = k ++ "=" ++ v /\ strings.Index k "=" = None /\
    Dyn.ParseAnnotation "@marshal=true" Dyn.NewEnumConfig =
    Dyn.setStringOption (strings.TrimSpace k) (strip_quotes (strings.TrimSpace v))
      Dyn.NewEnumConfig /\
    forall f : Field.bool_field,
      strings.TrimSpace k = Field.key f ->
      Dyn.ParseAnnotation "@marshal=true" Dyn.NewEnumConfig =
      (Dyn.NewEnumConfig,
       Errorf ("unknown annotation with value: @" ++ Field.key f ++ "="
               ++ strip_quotes (strings.TrimSpace v))).
Proof.
  refine (proj1 (proj2 (C7_one_form_by_priority "@marshal=true" "marshal=true"
                          Dyn.NewEnumConfig _)) _ _);
    vm_compute; reflexivity.
Defined.

(* ------------------------------------------------------------------ *)
(** * [CaseInsensitive] and [LowercaseLookup] along a sequence *)

Lemma Dyn_parse_all_cons (d : string) (ds : list string) (ec : Dyn.EnumConfig) :
  Dyn.parse_all (d :: ds) ec =
  (fst (Dyn.parse_all ds (fst (Dyn.ParseAnnotation d ec))),
   snd (Dyn.ParseAnnotation d ec) ::
   snd (Dyn.parse_all ds (fst (Dyn.ParseAnnotation d ec)))).
Proof.
  cbn [Dyn.parse_all]. destruct (Dyn.ParseAnnotation d ec) as [ec1 o]. cbn [fst snd].
  now destruct (Dyn.parse_all ds ec1).
Qed.

(** One application keeps the implication unless it turns
    [LowercaseLookup] into something other than (true, set). *)
Lemma Dyn_perform_nocase_implies_lower (a : action) (ec : Dyn.EnumConfig) :
  Dyn.nocase_implies_lower ec ->
  let ec' := fst (Dyn.perform a ec) in
  Dyn.LowercaseLookup ec' = Dyn.LowercaseLookup ec \/
  Dyn.LowercaseLookup ec' = Dyn.bool_value true ->
  Dyn.nocase_implies_lower ec'.
Proof.
  unfold Dyn.nocase_implies_lower, Dyn.bool_value.
  destruct a as [| | |key value|key value]; cbn [Dyn.perform fst]; try tauto.
  - rewrite Dyn_setBoolOption_of_key.
    destruct (Field.of_key key) as [f|]; cbn [fst]; [|tauto].
    destruct f, value; cbv [Dyn.assign_bool Dyn.bool_value]; cbn; intuition congruence.
  - unfold Dyn.setStringOption. destruct (String.eqb key "prefix"); cbn; tauto.
Qed.

(** Only the decision [lower:false] turns [LowercaseLookup] into
    something other than (true, set). *)
Lemma Dyn_perform_keeps_lower (a : action) (ec : Dyn.EnumConfig) :
  a <> SetBool "lower" false ->
  let ec' := fst (Dyn.perform a ec) in
  Dyn.LowercaseLookup ec' = Dyn.LowercaseLookup ec \/
  Dyn.LowercaseLookup ec' = Dyn.bool_value true.
Proof.
  destruct a as [| | |key value|key value]; cbn [Dyn.perform fst]; try (left; reflexivity).
  - rewrite Dyn_setBoolOption_of_key.
    destruct (Field.of_key key) as [f|] eqn:Hk; cbn [fst]; [|left; reflexivity].
    apply Field_of_key_Some in Hk. subst key.
    destruct f, value; cbn; intros Hne;
      first [left; reflexivity | right; reflexivity | contradiction].
  - intros _. unfold Dyn.setStringOption.
    destruct (String.eqb key "prefix"); left; reflexivity.
Qed.

Lemma not_lower_false_action (d : string) :
  ~ Dyn.directive_form (strings.TrimSpace d) "lower" (Dyn.any_bool false) ->
  directive_action d <> SetBool "lower" false.
Proof.
  intros Hn Ha. apply Hn. pose proof (action_form d) as Hf. now rewrite Ha in Hf.
Qed.

(** C2 as stated fails: [@nocase] and then [@lower:false] are
    both accepted, and leave [CaseInsensitive] set and true with
    [LowercaseLookup] set and false. *)
Lemma C2_counterexample :
  snd (Dyn.parse_all ["@nocase"; "@lower:false"] Dyn.NewEnumConfig) = [Nil; Nil] /\
  ~ Dyn.nocase_implies_lower
      (fst (Dyn.parse_all ["@nocase"; "@lower:false"] Dyn.NewEnumConfig)).
Proof.
  split.
  - vm_compute. reflexivity.
  - intros H. specialize (H eq_refl). vm_compute in H. discriminate H.
Qed.

(** C2, amended.  An application of a directive preserves the implication
    from [CaseInsensitive] set and true to [LowercaseLookup] set and true
    unless it changes [LowercaseLookup] to something else than set and
    true, which only a [lower] directive with the value false does; so
    the implication holds after every sequence of calls from a fresh
    configuration in which no directive is [lower] with the value
    false. *)
Theorem C2_nocase_implies_lower_unless_lower_false :
  (forall (d : string) (ec : Dyn.EnumConfig),
      Dyn.nocase_implies_lower ec ->
      let ec' := fst (Dyn.ParseAnnotation d ec) in
      Dyn.LowercaseLookup ec' = Dyn.LowercaseLookup ec \/
      Dyn.LowercaseLookup ec' = Dyn.bool_value true ->
      Dyn.nocase_implies_lower ec') /\
  (forall (d : string) (ec : Dyn.EnumConfig),
      ~ Dyn.directive_form (strings.TrimSpace d) "lower" (Dyn.any_bool false) ->
      let ec' := fst (Dyn.ParseAnnotation d ec) in
      Dyn.LowercaseLookup ec' = Dyn.LowercaseLookup ec \/
      Dyn.LowercaseLookup ec' = Dyn.bool_value true) /\
  (forall ds : list string,
      (forall d, In d ds ->
                 ~ Dyn.directive_form (strings.TrimSpace d) "lower" (Dyn.any_bool false)) ->
      Dyn.nocase_implies_lower (fst (Dyn.parse_all ds Dyn.NewEnumConfig))).
Proof.
  assert (Hstep : forall d ec,
             Dyn.nocase_implies_lower ec ->
             let ec' := fst (Dyn.ParseAnnotation d ec) in
             Dyn.LowercaseLookup ec' = Dyn.LowercaseLookup ec \/
             Dyn.LowercaseLookup ec' = Dyn.bool_value true ->
             Dyn.nocase_implies_lower ec').
  { intros d ec Hi. rewrite Dyn_ParseAnnotation_action.
    now apply Dyn_perform_nocase_implies_lower. }
  assert (Hkeep : forall d ec,
             ~ Dyn.directive_form (strings.TrimSpace d) "lower" (Dyn.any_bool false) ->
             let ec' := fst (Dyn.ParseAnnotation d ec) in
             Dyn.LowercaseLookup ec' = Dyn.LowercaseLookup ec \/
             Dyn.LowercaseLookup ec' = Dyn.bool_value true).
  { intros d ec Hn. rewrite Dyn_ParseAnnotation_action.
    now apply Dyn_perform_keeps_lower, not_lower_false_action. }
  split; [exact Hstep|]. split; [exact Hkeep|].
  intros ds.
  assert (Hfresh : Dyn.nocase_implies_lower Dyn.NewEnumConfig) by (intros H; discriminate H).
  revert Hfresh. generalize Dyn.NewEnumConfig as ec.
  induction ds as [|d ds IH]; intros ec Hi Hds.
  - exact Hi.
  - rewrite Dyn_parse_all_cons. cbn [fst]. apply IH.
    + apply Hstep; [exact Hi|]. apply Hkeep, Hds. now left.
    + intros d' Hin. apply Hds. now right.
Qed.

Lemma C2_nocase_implies_lower_unless_lower_false_witness :
  Dyn.nocase_implies_lower
    (fst (Dyn.parse_all ["@nocase"; "@lower"; "@nocase:false"] Dyn.NewEnumConfig)).
Proof.
  apply (proj2 (proj2 C2_nocase_implies_lower_unless_lower_false)).
  intros d Hin Hform. apply form_action in Hform.
  destruct Hform as [(b & Hb & Ha)|(s & Hs & _)]; [|discriminate Hs].
  injection Hb as <-.
  destruct Hin as [<-|[<-|[<-|[]]]]; vm_compute in Ha; discriminate Ha.
Defined.

(* ------------------------------------------------------------------ *)
(** * Reading a slot *)

(** A read with the method of the other type: after [@prefix:My] the
    slot [Prefix] is set and holds the string [My], and [GetBool] on it
    returns the default, the type assertion failing. *)
Lemma GetBool_on_Prefix_returns_default :
  let v := Dyn.Prefix (fst (Dyn.ParseAnnotation "@prefix:My" Dyn.NewEnumConfig)) in
  Dyn.Valid v = true /\
  Dyn.Value v = Dyn.any_string "My" /\
  Dyn.GetBool v false = false /\
  Dyn.GetBool v true = true.
Proof.
  vm_compute. repeat split.
Qed.

(** C9.  In both versions [GetBool] and [GetString] return the default
    on a slot that is not set, whatever the default is, never a zero
    value.  On a slot that is set they return the stored value: always in
    the generic version, and in the version storing [interface{}] values
    whenever the slot holds a value of the type read ([bool] for
    [GetBool], [string] for [GetString]); a set slot holding a value of
    another type is answered with the default. *)
Theorem C9_reads
  (v : Dyn.EnumConfigValue) (T : Type) (w : Gen.EnumConfigValue T)
  (b : bool) (s : string) (t : T) :
  (Dyn.Valid v = false -> Dyn.GetBool v b = b /\ Dyn.GetString v s = s) /\
  (Gen.Valid w = false -> Gen.GetBool w t = t /\ Gen.GetString w t = t) /\
  (Gen.Valid w = true -> Gen.GetBool w t = Gen.Value w /\ Gen.GetString w t = Gen.Value w) /\
  (Dyn.Valid v = true ->
   (forall x, Dyn.Value v = Dyn.any_bool x -> Dyn.GetBool v b = x) /\
   (forall x, Dyn.Value v = Dyn.any_string x -> Dyn.GetString v s = x) /\
   ((forall x, Dyn.Value v <> Dyn.any_bool x) -> Dyn.GetBool v b = b) /\
   ((forall x, Dyn.Value v <> Dyn.any_string x) -> Dyn.GetString v s = s)).
Proof.
  unfold Dyn.GetBool, Dyn.GetString, Gen.GetBool, Gen.GetString.
  repeat apply conj.
  - intros ->. split; reflexivity.
  - intros ->. split; reflexivity.
  - intros ->. split; reflexivity.
  - intros ->. repeat apply conj.
    + now intros x ->.
    + now intros x ->.
    + intros Hn. destruct (Dyn.Value v) as [|x| |]; try reflexivity.
      now destruct (Hn x).
    + intros Hn. destruct (Dyn.Value v) as [| |x|]; try reflexivity.
      now destruct (Hn x).
Qed.

Lemma C9_reads_witness :
  (Dyn.GetBool Dyn.zero true = true /\ Dyn.GetString Dyn.zero "My" = "My") /\
  (Gen.GetBool Gen.zero_bool true = true /\ Gen.GetString Gen.zero_bool true = true) /\
  (Gen.GetBool (Gen.mkValue false true) true = false /\
   Gen.GetString (Gen.mkValue false true) true = false) /\
  (Dyn.GetBool (Dyn.bool_value false) true = false).
Proof.
  pose proof (C9_reads Dyn.zero bool Gen.zero_bool true "My" true) as (H1 & H2 & _).
  pose proof (C9_reads (Dyn.bool_value false) bool (Gen.mkValue false true) true "My" true)
    as (_ & _ & H3 & H4).
  repeat apply conj.
  - exact (proj1 (H1 eq_refl)).
  - exact (proj2 (H1 eq_refl)).
  - exact (proj1 (H2 eq_refl)).
  - exact (proj2 (H2 eq_refl)).
  - exact (proj1 (H3 eq_refl)).
  - exact (proj2 (H3 eq_refl)).
  - exact (proj1 (H4 eq_refl) false eq_refl).
Defined.

(* ------------------------------------------------------------------ *)
(** * The two versions agree *)

Section GenSetters.

Variable ec : Gen.EnumConfig.

Lemma Gen_setBoolOption_of_key (key : string) (value : bool) :
  Gen.setBoolOption key value ec =
  match Field.of_key key with
  | Some f => (Gen.assign_bool f value ec, Nil)
  | None => (ec, Errorf ("unknown annotation: @" ++ key))
  end.
Proof.
  unfold Gen.setBoolOption, Field.of_key.
  repeat match goal with
         | |- context [String.eqb key ?lit] => destruct (String.eqb key lit)
         end; try reflexivity.
Qed.

Lemma Gen_get_assign_bool (f g : Field.bool_field) (value : bool) :
  Gen.get_bool g (Gen.assign_bool f value ec) =
  if Field.eqb g f then Gen.mkValue value true
  else if Field.eqb f Field.CaseInsensitive && Field.eqb g Field.LowercaseLookup && value
       then Gen.mkValue true true
       else Gen.get_bool g ec.
Proof. destruct f, g, value; reflexivity. Qed.

Lemma Gen_Prefix_assign_bool (f : Field.bool_field) (value : bool) :
  Gen.Prefix (Gen.assign_bool f value ec) = Gen.Prefix ec.
Proof. destruct f, value; reflexivity. Qed.

Lemma Gen_get_bool_set_Prefix (f : Field.bool_field) (v : Gen.EnumConfigValue string) :
  Gen.get_bool f (Gen.set_Prefix v ec) = Gen.get_bool f ec.
Proof. destruct f; reflexivity. Qed.

End GenSetters.

Lemma Gen_parse_all_cons (d : string) (ds : list string) (ec : Gen.EnumConfig) :
  Gen.parse_all (d :: ds) ec =
  (fst (Gen.parse_all ds (fst (Gen.ParseAnnotation d ec))),
   snd (Gen.ParseAnnotation d ec) ::
   snd (Gen.parse_all ds (fst (Gen.ParseAnnotation d ec)))).
Proof.
  cbn [Gen.parse_all]. destruct (Gen.ParseAnnotation d ec) as [ec1 o]. cbn [fst snd].
  now destruct (Gen.parse_all ds ec1).
Qed.

Lemma same_config_fresh : same_config Dyn.NewEnumConfig Gen.NewEnumConfig.
Proof.
  split.
  - intros f. destruct f; split; (reflexivity || discriminate).
  - split; (reflexivity || discriminate).
Qed.

(** One decision, performed by each version on configurations that
    agree: the same outcome, and configurations that agree. *)
Lemma same_config_perform (a : action) (cd : Dyn.EnumConfig) (cg : Gen.EnumConfig) :
  same_config cd cg ->
  snd (Dyn.perform a cd) = snd (Gen.perform a cg) /\
  same_config (fst (Dyn.perform a cd)) (fst (Gen.perform a cg)).
Proof.
  intros [Hb Hp].
  destruct a as [| | |key value|key value]; cbn [Dyn.perform Gen.perform fst snd];
    try (split; [reflexivity|now split]).
  - rewrite Dyn_setBoolOption_of_key, Gen_setBoolOption_of_key.
    destruct (Field.of_key key) as [f|]; cbn [fst snd];
      [|split; [reflexivity|now split]].
    split; [reflexivity|]. split.
    + intros g. rewrite Dyn_get_assign_bool, Gen_get_assign_bool.
      repeat split_on_test; try apply Hb; split; reflexivity.
    + now rewrite Dyn_Prefix_assign_bool, Gen_Prefix_assign_bool.
  - unfold Dyn.setStringOption, Gen.setStringOption.
    destruct (String.eqb key "prefix"); cbn [fst snd];
      [|split; [reflexivity|now split]].
    split; [reflexivity|]. split.
    + intros g. now rewrite Dyn_get_bool_set_Prefix, Gen_get_bool_set_Prefix.
    + split; reflexivity.
Qed.

Lemma same_config_parse_all (ds : list string) :
  forall cd cg,
    same_config cd cg ->
    snd (Dyn.parse_all ds cd) = snd (Gen.parse_all ds cg) /\
    same_config (fst (Dyn.parse_all ds cd)) (fst (Gen.parse_all ds cg)).
Proof.
  induction ds as [|d ds IH]; intros cd cg Hs.
  - now split.
  - rewrite Dyn_parse_all_cons, Gen_parse_all_cons. cbn [fst snd].
    rewrite Dyn_ParseAnnotation_action, Gen_ParseAnnotation_action.
    destruct (same_config_perform (directive_action d) cd cg Hs) as [Ho Hs'].
    destruct (IH _ _ Hs') as [Hos Hs''].
    split; [now rewrite Ho, Hos|exact Hs''].
Qed.

(** C10.  For every sequence of annotations applied in order to a fresh
    configuration, the two versions of [ParseAnnotation] return the same
    outcomes, call by call, with the same messages, and afterwards
    [GetBool] on each boolean field and [GetString] on [Prefix] return
    the same results in both versions, for every default. *)
Theorem C10_versions_agree (ds : list string) :
  let cd := fst (Dyn.parse_all ds Dyn.NewEnumConfig) in
  let cg := fst (Gen.parse_all ds Gen.NewEnumConfig) in
  snd (Dyn.parse_all ds Dyn.NewEnumConfig) = snd (Gen.parse_all ds Gen.NewEnumConfig) /\
  (forall (f : Field.bool_field) (def : bool),
      Dyn.GetBool (Dyn.get_bool f cd) def = Gen.GetBool (Gen.get_bool f cg) def) /\
  (forall def : string,
      Dyn.GetString (Dyn.Prefix cd) def = Gen.GetString (Gen.Prefix cg) def).
Proof.
  cbv zeta.
  destruct (same_config_parse_all ds _ _ same_config_fresh) as [Ho [Hb Hp]].
  split; [exact Ho|]. split.
  - intros f def. destruct (Hb f) as [Hv Hval].
    unfold Dyn.GetBool, Gen.GetBool. rewrite Hv.
    destruct (Gen.Valid (Gen.get_bool f _)); [|reflexivity].
    now rewrite (Hval eq_refl).
  - intros def. destruct Hp as [Hv Hval].
    unfold Dyn.GetString, Gen.GetString. rewrite Hv.
    destruct (Gen.Valid (Gen.Prefix _)); [|reflexivity].
    now rewrite (Hval eq_refl).
Qed.

(* ------------------------------------------------------------------ *)
(** * White space around a directive *)

Lemma asciiSpace_below_RuneSelf (b : N) :
  strings.asciiSpace b = true -> (utf8.RuneSelf <=? b)%N = false.
Proof.
  unfold strings.asciiSpace. rewrite !orb_true_iff, !N.eqb_eq.
  intros [[[[[->| ->]| ->]| ->]| ->]| ->]; reflexivity.
Qed.

Lemma ascii_mark_stops (c : ascii) :
  ascii_mark c = true ->
  (utf8.RuneSelf <=? byte_val c)%N = false /\ strings.asciiSpace (byte_val c) = false.
Proof.
  unfold ascii_mark. rewrite andb_true_iff, negb_true_iff, N.ltb_lt.
  intros [Hlt Hs]. split; [now apply N.leb_gt|exact Hs].
Qed.

Lemma ascii_spaces_cons (c : ascii) (s : string) :
  ascii_spaces (String c s) = strings.asciiSpace (byte_val c) && ascii_spaces s.
Proof. reflexivity. Qed.

Lemma ascii_spaces_get (ws : string) (n : nat) (c : ascii) :
  ascii_spaces ws = true -> get n ws = Some c -> strings.asciiSpace (byte_val c) = true.
Proof.
  revert n. induction ws as [|a ws IH]; intros n Hs Hg; [discriminate|].
  rewrite ascii_spaces_cons in Hs. apply andb_true_iff in Hs as [Ha Hws].
  destruct n as [|n]; cbn in Hg.
  - now injection Hg as <-.
  - eauto.
Qed.

Lemma get_in_range (s : string) (n : nat) :
  n < length s -> exists c, get n s = Some c.
Proof.
  revert n. induction s as [|a s IH]; intros n Hn; cbn in Hn; [lia|].
  destruct n as [|n]; cbn; [eauto|]. apply IH. lia.
Qed.

(** The first loop passes over leading ASCII white space. *)
Lemma TrimSpace_leading (ws s : string) :
  ascii_spaces ws = true -> strings.TrimSpace (ws ++ s) = strings.TrimSpace s.
Proof.
  induction ws as [|c ws IH]; intros Hs; [reflexivity|].
  rewrite ascii_spaces_cons in Hs. apply andb_true_iff in Hs as [Hc Hws].
  cbn [append strings.TrimSpace].
  now rewrite (asciiSpace_below_RuneSelf _ Hc), Hc, IH.
Qed.

Lemma TrimSpace_spaces (ws : string) :
  ascii_spaces ws = true -> strings.TrimSpace ws = "".
Proof.
  induction ws as [|c ws IH]; intros Hs; [reflexivity|].
  rewrite ascii_spaces_cons in Hs. apply andb_true_iff in Hs as [Hc Hws].
  cbn [strings.TrimSpace].
  now rewrite (asciiSpace_below_RuneSelf _ Hc), Hc, IH.
Qed.

(** The second loop passes over trailing ASCII white space ... *)
Lemma TrimSpace_stop_trailing (d ws : string) (n : nat) :
  ascii_spaces ws = true ->
  n <= length ws ->
  strings.TrimSpace_stop (d ++ ws) (length d + n) =
  strings.TrimSpace_stop (d ++ ws) (length d).
Proof.
  intros Hs. induction n as [|n IH]; intros Hn.
  - now rewrite Nat.add_0_r.
  - rewrite Nat.add_succ_r. cbn [strings.TrimSpace_stop].
    destruct (get_in_range ws n) as [c Hc]; [lia|].
    unfold at_index. rewrite Nat.add_comm, <- append_correct2, Hc.
    pose proof (ascii_spaces_get ws n c Hs Hc) as Hsp.
    rewrite (asciiSpace_below_RuneSelf _ Hsp), Hsp. cbn [negb].
    rewrite Nat.add_comm. apply IH. lia.
Qed.

(** ... and stops on a last byte that is an ASCII mark. *)
Lemma TrimSpace_stop_mark (d ws : string) (l : ascii) :
  get (length d - 1) d = Some l ->
  ascii_mark l = true ->
  strings.TrimSpace_stop (d ++ ws) (length d) = d.
Proof.
  intros Hl Hm. destruct (length d) as [|k] eqn:Hlen.
  - destruct d; [discriminate Hl|discriminate Hlen].
  - cbn [strings.TrimSpace_stop]. cbn in Hl. rewrite Nat.sub_0_r in Hl.
    unfold at_index. rewrite <- append_correct1 by lia. rewrite Hl.
    destruct (ascii_mark_stops l Hm) as [-> ->]. cbn [negb].
    rewrite <- Hlen. apply slice_app_left.
Qed.

Lemma length_append (a b : string) : length (a ++ b) = length a + length b.
Proof. induction a as [|c a IH]; cbn; [reflexivity|now rewrite IH]. Qed.

(** A text whose first and last bytes are ASCII marks comes out of
    [TrimSpace] as it is, whatever ASCII white space surrounds it and
    whatever bytes lie in between. *)
Lemma TrimSpace_padded (ws1 d ws2 : string) :
  ascii_spaces ws1 = true ->
  ascii_spaces ws2 = true ->
  marked_ends d = true ->
  strings.TrimSpace (ws1 ++ d ++ ws2) = d.
Proof.
  intros H1 H2 Hd. rewrite (TrimSpace_leading ws1 _ H1).
  unfold marked_ends in Hd.
  destruct (get 0 d) as [c|] eqn:Hc0; [|discriminate].
  destruct (get (length d - 1) d) as [l|] eqn:Hl; [|discriminate].
  apply andb_true_iff in Hd as [Hc Hm].
  destruct d as [|c' d']; [discriminate|]. injection Hc0 as ->.
  set (d := String c d') in *.
  assert (Hstart : strings.TrimSpace (d ++ ws2) =
                   strings.TrimSpace_stop (d ++ ws2) (length (d ++ ws2))).
  { unfold d. cbn [append strings.TrimSpace].
    now destruct (ascii_mark_stops c Hc) as [-> ->]. }
  rewrite Hstart, length_append, (TrimSpace_stop_trailing d ws2 _ H2) by lia.
  now apply (TrimSpace_stop_mark d ws2 l).
Qed.

Lemma TrimSpace_marked (d : string) :
  marked_ends d = true -> strings.TrimSpace d = d.
Proof.
  intros Hd. pose proof (TrimSpace_padded "" d "" eq_refl eq_refl Hd) as H.
  cbn [append] in H. replace (d ++ "") with d in H; [exact H|].
  clear. induction d as [|c d IH]; cbn; [reflexivity|now rewrite <- IH].
Qed.

Lemma Dyn_ParseAnnotation_trimmed (d d' : string) (ec : Dyn.EnumConfig) :
  strings.TrimSpace d = strings.TrimSpace d' ->
  Dyn.ParseAnnotation d ec = Dyn.ParseAnnotation d' ec.
Proof. intros H. unfold Dyn.ParseAnnotation. now rewrite H. Qed.

Lemma Gen_ParseAnnotation_trimmed (d d' : string) (ec : Gen.EnumConfig) :
  strings.TrimSpace d = strings.TrimSpace d' ->
  Gen.ParseAnnotation d ec = Gen.ParseAnnotation d' ec.
Proof. intros H. unfold Gen.ParseAnnotation. now rewrite H. Qed.

(** X1.  An annotation that is empty, or holds nothing but ASCII white
    space (tab, newline, vertical tab, form feed, carriage return, space),
    is accepted by both versions and leaves the configuration as it is. *)
Theorem X1_blank_annotation_is_skipped
  (ws : string) (ec : Dyn.EnumConfig) (eg : Gen.EnumConfig) :
  ascii_spaces ws = true ->
  Dyn.ParseAnnotation ws ec = (ec, Nil) /\ Gen.ParseAnnotation ws eg = (eg, Nil).
Proof.
  intros Hs. unfold Dyn.ParseAnnotation, Gen.ParseAnnotation.
  rewrite (TrimSpace_spaces ws Hs). split; reflexivity.
Qed.

Lemma X1_blank_annotation_is_skipped_witness :
  Dyn.ParseAnnotation "   " Dyn.NewEnumConfig = (Dyn.NewEnumConfig, Nil) /\
  Gen.ParseAnnotation "   " Gen.NewEnumConfig = (Gen.NewEnumConfig, Nil).
Proof.
  apply (X1_blank_annotation_is_skipped "   "). reflexivity.
Defined.

(** X2.  ASCII white space before and after a directive is immaterial:
    when the directive itself starts and ends with ASCII bytes that are
    not white space (it starts with the marker), both versions treat the
    padded text as the directive alone. *)
Theorem X2_outer_white_space_is_ignored
  (ws1 d ws2 : string) (ec : Dyn.EnumConfig) (eg : Gen.EnumConfig) :
  ascii_spaces ws1 = true ->
  ascii_spaces ws2 = true ->
  marked_ends d = true ->
  Dyn.ParseAnnotation (ws1 ++ d ++ ws2) ec = Dyn.ParseAnnotation d ec /\
  Gen.ParseAnnotation (ws1 ++ d ++ ws2) eg = Gen.ParseAnnotation d eg.
Proof.
  intros H1 H2 Hd.
  assert (Ht : strings.TrimSpace (ws1 ++ d ++ ws2) = strings.TrimSpace d)
    by now rewrite (TrimSpace_padded ws1 d ws2 H1 H2 Hd), (TrimSpace_marked d Hd).
  split; [now apply Dyn_ParseAnnotation_trimmed|now apply Gen_ParseAnnotation_trimmed].
Qed.

Lemma X2_outer_white_space_is_ignored_witness :
  Dyn.ParseAnnotation ("  " ++ "@sql:false" ++ " ") Dyn.NewEnumConfig =
  Dyn.ParseAnnotation "@sql:false" Dyn.NewEnumConfig /\
  Gen.ParseAnnotation ("  " ++ "@sql:false" ++ " ") Gen.NewEnumConfig =
  Gen.ParseAnnotation "@sql:false" Gen.NewEnumConfig.
Proof.
  apply (X2_outer_white_space_is_ignored "  " "@sql:false" " "); reflexivity.
Defined.

(* ------------------------------------------------------------------ *)
(** * The generic version on its own *)

Lemma Gen_assign_bool_twice (f : Field.bool_field) (value : bool) (ec : Gen.EnumConfig) :
  Gen.assign_bool f value (Gen.assign_bool f value ec) = Gen.assign_bool f value ec.
Proof. destruct f, value; reflexivity. Qed.

Lemma Gen_perform_twice (a : action) (ec : Gen.EnumConfig) :
  Gen.perform a (fst (Gen.perform a ec)) = Gen.perform a ec.
Proof.
  destruct a as [| | |key value|key value]; try reflexivity.
  - cbn [Gen.perform]. rewrite !Gen_setBoolOption_of_key.
    destruct (Field.of_key key) as [f|]; cbn [fst]; [|reflexivity].
    now rewrite Gen_assign_bool_twice.
  - cbn [Gen.perform]. unfold Gen.setStringOption.
    destruct (String.eqb key "prefix"); reflexivity.
Qed.

Lemma Gen_perform_failure (a : action) (ec : Gen.EnumConfig) :
  snd (Gen.perform a ec) <> Nil -> fst (Gen.perform a ec) = ec.
Proof.
  destruct a as [| | |key value|key value]; try reflexivity.
  - cbn [Gen.perform]. rewrite Gen_setBoolOption_of_key.
    destruct (Field.of_key key); cbn; [contradiction|reflexivity].
  - cbn [Gen.perform]. unfold Gen.setStringOption.
    destruct (String.eqb key "prefix"); cbn; [contradiction|reflexivity].
Qed.

(** What a decision returns, whatever the configuration and the
    version. *)
Lemma perform_outcome (a : action) (ec : Dyn.EnumConfig) (eg : Gen.EnumConfig) :
  snd (Dyn.perform a ec) = snd (Gen.perform a eg).
Proof.
  destruct a as [| | |key value|key value]; try reflexivity; cbn [Dyn.perform Gen.perform].
  - rewrite Dyn_setBoolOption_of_key, Gen_setBoolOption_of_key.
    now destruct (Field.of_key key).
  - unfold Dyn.setStringOption, Gen.setStringOption.
    now destruct (String.eqb key "prefix").
Qed.

(** X3.  In both versions the index reads [parts[0]] and [parts[1]] of
    [ParseAnnotation] are always in range: they come after
    [strings.Contains] has found the separator, and
    [strings.SplitN(annotation, sep, 2)] then returns two pieces.  (The
    other reads of the function, on [annotation] and on [value], are
    total in this embedding and are not what is stated here.) *)
Theorem X3_index_always_in_range
  (d : string) (ec : Dyn.EnumConfig) (eg : Gen.EnumConfig) :
  snd (Dyn.ParseAnnotation d ec) <> IndexPanic /\
  snd (Gen.ParseAnnotation d eg) <> IndexPanic.
Proof.
  assert (Hd : snd (Dyn.ParseAnnotation d ec) <> IndexPanic).
  { rewrite Dyn_ParseAnnotation_action.
    pose proof (directive_action_no_crash d) as Hc.
    destruct (directive_action d) as [| | |key value|key value];
      cbn [Dyn.perform snd]; try discriminate; try contradiction.
    - rewrite Dyn_setBoolOption_of_key. destruct (Field.of_key key); discriminate.
    - unfold Dyn.setStringOption. destruct (String.eqb key "prefix"); discriminate. }
  split; [exact Hd|].
  rewrite Gen_ParseAnnotation_action, <- (perform_outcome _ ec eg).
  now rewrite <- Dyn_ParseAnnotation_action.
Qed.

(** X4.  What [ParseAnnotation] returns -- [nil], or an error and its
    message -- is settled by the annotation alone: it is the same on
    every configuration, and the same in the two versions. *)
Theorem X4_outcome_from_text_alone
  (d : string) (ec ec' : Dyn.EnumConfig) (eg eg' : Gen.EnumConfig) :
  snd (Dyn.ParseAnnotation d ec) = snd (Dyn.ParseAnnotation d ec') /\
  snd (Gen.ParseAnnotation d eg) = snd (Gen.ParseAnnotation d eg') /\
  snd (Dyn.ParseAnnotation d ec) = snd (Gen.ParseAnnotation d eg).
Proof.
  rewrite !Dyn_ParseAnnotation_action, !Gen_ParseAnnotation_action.
  repeat split.
  - now rewrite (perform_outcome _ ec eg), (perform_outcome _ ec' eg).
  - now rewrite <- (perform_outcome _ ec eg), <- (perform_outcome _ ec eg').
  - apply perform_outcome.
Qed.

(** X5.  The generic version of [ParseAnnotation] is idempotent: on every
    configuration, a second application of an annotation returns what
    the first returned and leaves the configuration the first left. *)
Theorem X5_Gen_idempotent (d : string) (ec : Gen.EnumConfig) :
  Gen.ParseAnnotation d (fst (Gen.ParseAnnotation d ec)) = Gen.ParseAnnotation d ec.
Proof.
  rewrite !Gen_ParseAnnotation_action. apply Gen_perform_twice.
Qed.

(** X6.  When the generic version of [ParseAnnotation] returns an error,
    no field of the configuration has been assigned. *)
Theorem X6_Gen_error_leaves_config (d : string) (ec : Gen.EnumConfig) (msg : string) :
  snd (Gen.ParseAnnotation d ec) = Errorf msg ->
  fst (Gen.ParseAnnotation d ec) = ec.
Proof.
  rewrite Gen_ParseAnnotation_action. intros H.
  apply Gen_perform_failure. rewrite H. discriminate.
Qed.

Lemma X6_Gen_error_leaves_config_witness :
  fst (Gen.ParseAnnotation "marshal" Gen.NewEnumConfig) = Gen.NewEnumConfig.
Proof.
  apply (X6_Gen_error_leaves_config "marshal" Gen.NewEnumConfig
           "annotation must start with @: marshal").
  vm_compute. reflexivity.
Defined.

(* ------------------------------------------------------------------ *)
(** * The keys of the two setters *)

Lemma Field_key_in_bool_keys (f : Field.bool_field) : In (Field.key f) bool_keys.
Proof. destruct f; cbn; tauto. Qed.

Lemma bool_keys_of_key (key : string) :
  In key bool_keys -> exists f, Field.of_key key = Some f.
Proof.
  cbn. intros H.
  repeat (destruct H as [<-|H]; [eexists; reflexivity|]). contradiction.
Qed.

(** X7.  [setBoolOption] accepts exactly its nineteen [case] labels and
    [setStringOption] exactly [prefix], in both versions: the key is
    compared as it is, byte for byte, and the value plays no part. *)
Theorem X7_recognised_keys
  (key : string) (value : bool) (text : string)
  (ec : Dyn.EnumConfig) (eg : Gen.EnumConfig) :
  (snd (Dyn.setBoolOption key value ec) = Nil <-> In key bool_keys) /\
  (snd (Gen.setBoolOption key value eg) = Nil <-> In key bool_keys) /\
  (snd (Dyn.setStringOption key text ec) = Nil <-> key = "prefix") /\
  (snd (Gen.setStringOption key text eg) = Nil <-> key = "prefix").
Proof.
  assert (Hb : snd (Dyn.setBoolOption key value ec) = Nil <-> In key bool_keys).
  { rewrite Dyn_setBoolOption_of_key. split.
    - destruct (Field.of_key key) as [f|] eqn:Hk; [|discriminate].
      intros _. apply Field_of_key_Some in Hk. subst key.
      apply Field_key_in_bool_keys.
    - intros Hin. destruct (bool_keys_of_key key Hin) as [f ->]. reflexivity. }
  assert (Hs : snd (Dyn.setStringOption key text ec) = Nil <-> key = "prefix").
  { unfold Dyn.setStringOption.
    destruct (String.eqb_spec key "prefix") as [->|Hne]; cbn; split; try reflexivity;
      try discriminate; contradiction. }
  repeat split; try apply Hb; try apply Hs.
  - intros H. apply Hb. rewrite <- H.
    apply (perform_outcome (SetBool key value) ec eg).
  - intros H. apply Hb in H. rewrite <- H. symmetry.
    apply (perform_outcome (SetBool key value) ec eg).
  - intros H. apply Hs. rewrite <- H.
    apply (perform_outcome (SetString key text) ec eg).
  - intros H. apply Hs in H. rewrite <- H. symmetry.
    apply (perform_outcome (SetString key text) ec eg).
Qed.

Lemma X7_recognised_keys_witness :
  snd (Dyn.setBoolOption "nocamel" false Dyn.NewEnumConfig) = Nil /\
  ~ In "Marshal" bool_keys.
Proof.
  split.
  - apply (proj1 (X7_recognised_keys "nocamel" false "" Dyn.NewEnumConfig Gen.NewEnumConfig)).
    cbn. tauto.
  - intros Hin.
    apply (proj1 (X7_recognised_keys "Marshal" true "" Dyn.NewEnumConfig Gen.NewEnumConfig))
      in Hin.
    vm_compute in Hin. discriminate Hin.
Defined.

(** X8.  Each of the nineteen boolean keys is accepted bare and with
    [:true] or [:false]; the bare key does what the key with [:true]
    does, and each form comes to the call of [setBoolOption] with that
    key and value. *)
Theorem X8_boolean_key_forms (key : string) (value : bool) (ec : Dyn.EnumConfig) :
  In key bool_keys ->
  Dyn.ParseAnnotation ("@" ++ key ++ ":" ++ bool_text value) ec =
    Dyn.setBoolOption key value ec /\
  Dyn.ParseAnnotation ("@" ++ key) ec = Dyn.ParseAnnotation ("@" ++ key ++ ":true") ec /\
  snd (Dyn.ParseAnnotation ("@" ++ key ++ ":" ++ bool_text value) ec) = Nil.
Proof.
  intros Hin.
  assert (Hcolon : forall b, directive_action ("@" ++ key ++ ":" ++ bool_text b)
                             = SetBool key b).
  { intros b. cbn in Hin.
    repeat (destruct Hin as [<-|Hin]; [destruct b; vm_compute; reflexivity|]).
    contradiction. }
  assert (Hbare : directive_action ("@" ++ key) = SetBool key true).
  { cbn in Hin.
    repeat (destruct Hin as [<-|Hin]; [vm_compute; reflexivity|]).
    contradiction. }
  rewrite !Dyn_ParseAnnotation_action, Hbare, Hcolon. change ":true" with (":" ++ bool_text true).
  rewrite Hcolon. repeat split.
  cbn [Dyn.perform]. rewrite Dyn_setBoolOption_of_key.
  destruct (bool_keys_of_key key Hin) as [f ->]. reflexivity.
Qed.

Lemma X8_boolean_key_forms_witness :
  Dyn.ParseAnnotation ("@" ++ "ptr" ++ ":" ++ bool_text false) Dyn.NewEnumConfig =
    Dyn.setBoolOption "ptr" false Dyn.NewEnumConfig /\
  Dyn.ParseAnnotation ("@" ++ "ptr") Dyn.NewEnumConfig =
    Dyn.ParseAnnotation ("@" ++ "ptr" ++ ":true") Dyn.NewEnumConfig /\
  snd (Dyn.ParseAnnotation ("@" ++ "ptr" ++ ":" ++ bool_text false) Dyn.NewEnumConfig) = Nil.
Proof.
  apply (X8_boolean_key_forms "ptr" false Dyn.NewEnumConfig). cbn. tauto.
Defined.

(* ------------------------------------------------------------------ *)
(** * What a call changes *)

(** A field after a decision: as before, or assigned by the decision. *)
Lemma Dyn_perform_get (a : action) (ec : Dyn.EnumConfig) (g : Dyn.field) :
  let ec' := fst (Dyn.perform a ec) in
  Dyn.get g ec' = Dyn.get g ec \/
  (snd (Dyn.perform a ec) = Nil /\
   ((exists b, a = SetBool (Dyn.key_of g) b /\ Dyn.get g ec' = Dyn.bool_value b) \/
    (exists s, a = SetString (Dyn.key_of g) s /\ Dyn.get g ec' = Dyn.string_value s) \/
    (a = SetBool "nocase" true /\ g = Dyn.BoolField Field.LowercaseLookup /\
     Dyn.get g ec' = Dyn.bool_value true))).
Proof.
  destruct a as [| | |key value|key value]; cbn [Dyn.perform fst snd];
    try (left; reflexivity).
  - rewrite Dyn_setBoolOption_of_key.
    destruct (Field.of_key key) as [f|] eqn:Hk; cbn [fst snd]; [|left; reflexivity].
    apply Field_of_key_Some in Hk. subst key.
    destruct g as [gb|]; cbn [Dyn.get Dyn.key_of].
    + rewrite Dyn_get_assign_bool.
      destruct (Field.eqb gb f) eqn:Hgf.
      * apply Field_eqb_eq in Hgf. subst gb. right. split; [reflexivity|].
        left. now exists value.
      * destruct (Field.eqb f Field.CaseInsensitive) eqn:Hci; cbn [andb];
          [|left; reflexivity].
        destruct (Field.eqb gb Field.LowercaseLookup) eqn:Hll; cbn [andb];
          [|left; reflexivity].
        destruct value; [|left; reflexivity].
        apply Field_eqb_eq in Hci, Hll. subst f gb.
        right. split; [reflexivity|]. right; right. repeat split.
    + left. apply Dyn_Prefix_assign_bool.
  - unfold Dyn.setStringOption.
    destruct (String.eqb_spec key "prefix") as [->|]; cbn [fst snd]; [|left; reflexivity].
    destruct g as [gb|]; cbn [Dyn.get Dyn.key_of].
    + left. apply Dyn_get_bool_set_Prefix.
    + right. split; [reflexivity|]. right; left. now exists value.
Qed.

(** X9.  A call changes no field but the one of the directive's key and,
    for [nocase] with the value true, [LowercaseLookup]: whenever a field
    differs after the call, the call has succeeded, the directive has one
    of the three forms, and either the field is the one of its key and
    now holds its value, set, or the directive is [nocase] with true and
    the field is [LowercaseLookup], now set and true. *)
Theorem X9_only_the_key_field_changes (d : string) (ec : Dyn.EnumConfig) (g : Dyn.field) :
  let ec' := fst (Dyn.ParseAnnotation d ec) in
  Dyn.get g ec' <> Dyn.get g ec ->
  snd (Dyn.ParseAnnotation d ec) = Nil /\
  exists key v,
    Dyn.directive_form (strings.TrimSpace d) key v /\
    ((key = Dyn.key_of g /\ Dyn.get g ec' = Dyn.mkValue v true) \/
     (key = "nocase" /\ v = Dyn.any_bool true /\
      g = Dyn.BoolField Field.LowercaseLookup /\ Dyn.get g ec' = Dyn.bool_value true)).
Proof.
  cbv zeta. rewrite Dyn_ParseAnnotation_action. intros Hne.
  pose proof (action_form d) as Hform.
  destruct (Dyn_perform_get (directive_action d) ec g)
    as [Heq|[Hok [(b & Ha & Hg)|[(s & Ha & Hg)|(Ha & Hll & Hg)]]]];
    [contradiction| | |]; (split; [exact Hok|]); rewrite Ha in Hform.
  - exists (Dyn.key_of g), (Dyn.any_bool b). split; [exact Hform|]. left. now split.
  - exists (Dyn.key_of g), (Dyn.any_string s). split; [exact Hform|]. left. now split.
  - exists "nocase", (Dyn.any_bool true). split; [exact Hform|]. right. now repeat split.
Qed.

Lemma X9_only_the_key_field_changes_witness :
  let ec' := fst (Dyn.ParseAnnotation "@nocase" Dyn.NewEnumConfig) in
  snd (Dyn.ParseAnnotation "@nocase" Dyn.NewEnumConfig) = Nil /\
  exists key v,
    Dyn.directive_form (strings.TrimSpace "@nocase") key v /\
    ((key = Dyn.key_of (Dyn.BoolField Field.LowercaseLookup) /\
      Dyn.get (Dyn.BoolField Field.LowercaseLookup) ec' = Dyn.mkValue v true) \/
     (key = "nocase" /\ v = Dyn.any_bool true /\
      Dyn.BoolField Field.LowercaseLookup = Dyn.BoolField Field.LowercaseLookup /\
      Dyn.get (Dyn.BoolField Field.LowercaseLookup) ec' = Dyn.bool_value true)).
Proof.
  apply (X9_only_the_key_field_changes "@nocase" Dyn.NewEnumConfig
           (Dyn.BoolField Field.LowercaseLookup)).
  vm_compute. discriminate.
Defined.

(** A field that is set stays set through a decision. *)
Lemma Dyn_perform_keeps_set (a : action) (ec : Dyn.EnumConfig) (g : Dyn.field) :
  Dyn.Valid (Dyn.get g ec) = true ->
  Dyn.Valid (Dyn.get g (fst (Dyn.perform a ec))) = true.
Proof.
  intros Hv.
  destruct (Dyn_perform_get a ec g)
    as [->|[_ [(b & _ & ->)|[(s & _ & ->)|(_ & _ & ->)]]]]; auto.
Qed.

Lemma Dyn_parse_all_app (ds1 ds2 : list string) (ec : Dyn.EnumConfig) :
  fst (Dyn.parse_all (ds1 ++ ds2) ec) = fst (Dyn.parse_all ds2 (fst (Dyn.parse_all ds1 ec))).
Proof.
  revert ec. induction ds1 as [|d ds1 IH]; intros ec; [reflexivity|].
  cbn [app]. rewrite !Dyn_parse_all_cons. cbn [fst]. apply IH.
Qed.

(** X10.  No directive unsets a field: a field that is set before a
    sequence of calls is set after it, whatever the annotations are and
    whether they are accepted or not. *)
Theorem X10_set_fields_stay_set (ds : list string) (ec : Dyn.EnumConfig) (g : Dyn.field) :
  Dyn.Valid (Dyn.get g ec) = true ->
  Dyn.Valid (Dyn.get g (fst (Dyn.parse_all ds ec))) = true.
Proof.
  revert ec. induction ds as [|d ds IH]; intros ec Hv; [exact Hv|].
  rewrite Dyn_parse_all_cons. cbn [fst]. apply IH.
  rewrite Dyn_ParseAnnotation_action. now apply Dyn_perform_keeps_set.
Qed.

Lemma X10_set_fields_stay_set_witness :
  Dyn.Valid
    (Dyn.get (Dyn.BoolField Field.Marshal)
       (fst (Dyn.parse_all ["@marshal:false"; "@bogus"; "@sql"]
               (fst (Dyn.ParseAnnotation "@marshal" Dyn.NewEnumConfig))))) = true.
Proof.
  apply (X10_set_fields_stay_set ["@marshal:false"; "@bogus"; "@sql"]
           (fst (Dyn.ParseAnnotation "@marshal" Dyn.NewEnumConfig))
           (Dyn.BoolField Field.Marshal)).
  vm_compute. reflexivity.
Defined.

(* ------------------------------------------------------------------ *)
(** * The dynamic type of what the slots hold *)

Lemma Dyn_no_string_for_bool_key (f : Field.bool_field) (s : string) (ec : Dyn.EnumConfig) :
  snd (Dyn.perform (SetString (Field.key f) s) ec) <> Nil.
Proof.
  cbn [Dyn.perform]. unfold Dyn.setStringOption.
  rewrite Field_key_not_prefix. discriminate.
Qed.

Lemma Dyn_no_bool_for_prefix (b : bool) (ec : Dyn.EnumConfig) :
  snd (Dyn.perform (SetBool "prefix" b) ec) <> Nil.
Proof. cbn [Dyn.perform]. rewrite Dyn_setBoolOption_of_key. discriminate. Qed.

Lemma Dyn_perform_well_typed (a : action) (ec : Dyn.EnumConfig) :
  Dyn_well_typed ec -> Dyn_well_typed (fst (Dyn.perform a ec)).
Proof.
  intros [Hb Hp]. split.
  - intros f.
    destruct (Dyn_perform_get a ec (Dyn.BoolField f))
      as [Heq|[Hok [(b & Ha & Hg)|[(s & Ha & Hg)|(Ha & Hll & Hg)]]]];
      cbn [Dyn.get Dyn.key_of] in *.
    + rewrite Heq. apply Hb.
    + right. now exists b.
    + subst a. now destruct (Dyn_no_string_for_bool_key f s ec).
    + right. now exists true.
  - destruct (Dyn_perform_get a ec Dyn.PrefixField)
      as [Heq|[Hok [(b & Ha & Hg)|[(s & Ha & Hg)|(Ha & Hll & Hg)]]]];
      cbn [Dyn.get Dyn.key_of] in *.
    + rewrite Heq. apply Hp.
    + subst a. now destruct (Dyn_no_bool_for_prefix b ec).
    + right. now exists s.
    + discriminate Hll.
Qed.

Lemma Dyn_well_typed_fresh : Dyn_well_typed Dyn.NewEnumConfig.
Proof. split; [intros f; left; now destruct f|now left]. Qed.

(** X11.  On every configuration reached from a fresh one by a sequence
    of calls, a boolean field is either unset and [nil] or set and
    holding a [bool], and [Prefix] is either unset and [nil] or set and
    holding a [string]; so the type assertions of [GetBool] on a boolean
    field and of [GetString] on [Prefix] never fail on a set slot, and
    the stored value is what is returned. *)
Theorem X11_slots_hold_their_type (ds : list string) :
  let ec := fst (Dyn.parse_all ds Dyn.NewEnumConfig) in
  Dyn_well_typed ec /\
  (forall (f : Field.bool_field) (def : bool),
      Dyn.Valid (Dyn.get_bool f ec) = true ->
      Dyn.Value (Dyn.get_bool f ec) = Dyn.any_bool (Dyn.GetBool (Dyn.get_bool f ec) def)) /\
  (forall def : string,
      Dyn.Valid (Dyn.Prefix ec) = true ->
      Dyn.Value (Dyn.Prefix ec) = Dyn.any_string (Dyn.GetString (Dyn.Prefix ec) def)).
Proof.
  cbv zeta.
  assert (Hwt : Dyn_well_typed (fst (Dyn.parse_all ds Dyn.NewEnumConfig))).
  { generalize Dyn_well_typed_fresh. generalize Dyn.NewEnumConfig as ec.
    induction ds as [|d ds IH]; intros ec Hec; [exact Hec|].
    rewrite Dyn_parse_all_cons. cbn [fst]. apply IH.
    rewrite Dyn_ParseAnnotation_action. now apply Dyn_perform_well_typed. }
  split; [exact Hwt|]. destruct Hwt as [Hb Hp]. split.
  - intros f def. destruct (Hb f) as [->|[b ->]]; [discriminate|reflexivity].
  - intros def. destruct Hp as [->|[s ->]]; [discriminate|reflexivity].
Qed.

Lemma X11_slots_hold_their_type_witness :
  let ec := fst (Dyn.parse_all ["@sql:false"; "@prefix:My"] Dyn.NewEnumConfig) in
  Dyn.Value (Dyn.get_bool Field.SQL ec) =
  Dyn.any_bool (Dyn.GetBool (Dyn.get_bool Field.SQL ec) true).
Proof.
  apply (proj1 (proj2 (X11_slots_hold_their_type ["@sql:false"; "@prefix:My"]))).
  vm_compute. reflexivity.
Defined.

(* ------------------------------------------------------------------ *)
(** * Directives for different keys *)

Lemma Dyn_assign_bool_commute
  (f1 f2 : Field.bool_field) (v1 v2 : bool) (ec : Dyn.EnumConfig) :
  f1 <> f2 ->
  ~ (f1 = Field.CaseInsensitive /\ v1 = true /\ f2 = Field.LowercaseLookup) ->
  ~ (f2 = Field.CaseInsensitive /\ v2 = true /\ f1 = Field.LowercaseLookup) ->
  Dyn.assign_bool f2 v2 (Dyn.assign_bool f1 v1 ec) =
  Dyn.assign_bool f1 v1 (Dyn.assign_bool f2 v2 ec).
Proof.
  intros H0 H1 H2.
  destruct f1, f2; try (now elim H0); destruct v1, v2; try reflexivity;
    first [elim H1; now repeat split | elim H2; now repeat split].
Qed.

Lemma Dyn_assign_bool_set_Prefix
  (f : Field.bool_field) (b : bool) (v : Dyn.EnumConfigValue) (ec : Dyn.EnumConfig) :
  Dyn.set_Prefix v (Dyn.assign_bool f b ec) = Dyn.assign_bool f b (Dyn.set_Prefix v ec).
Proof. destruct f, b; reflexivity. Qed.

Lemma Dyn_perform_commute (a1 a2 : action) (ec : Dyn.EnumConfig) :
  match a1, a2 with
  | SetBool k1 v1, SetBool k2 v2 =>
      k1 <> k2 /\
      ~ (k1 = "nocase" /\ v1 = true /\ k2 = "lower") /\
      ~ (k2 = "nocase" /\ v2 = true /\ k1 = "lower")
  | SetString k1 _, SetString k2 _ => k1 <> k2
  | _, _ => True
  end ->
  fst (Dyn.perform a2 (fst (Dyn.perform a1 ec))) =
  fst (Dyn.perform a1 (fst (Dyn.perform a2 ec))).
Proof.
  destruct a1 as [| | |k1 v1|k1 s1], a2 as [| | |k2 v2|k2 s2];
    try (intros _; reflexivity); cbn [Dyn.perform].
  - intros (Hk & H1 & H2). rewrite !Dyn_setBoolOption_of_key.
    destruct (Field.of_key k1) as [f1|] eqn:E1, (Field.of_key k2) as [f2|] eqn:E2;
      cbn [fst]; rewrite ?Dyn_setBoolOption_of_key, ?E1, ?E2; try reflexivity.
    apply Field_of_key_Some in E1, E2. subst k1 k2. cbn [fst].
    apply Dyn_assign_bool_commute.
    + intros ->. now apply Hk.
    + intros (-> & -> & ->). apply H1. now repeat split.
    + intros (-> & -> & ->). apply H2. now repeat split.
  - intros _. rewrite !Dyn_setBoolOption_of_key. unfold Dyn.setStringOption.
    destruct (Field.of_key k1) as [f1|] eqn:E1, (String.eqb k2 "prefix");
      cbn [fst]; rewrite ?Dyn_setBoolOption_of_key, ?E1; try reflexivity.
    cbn [fst]. apply Dyn_assign_bool_set_Prefix.
  - intros _. rewrite !Dyn_setBoolOption_of_key. unfold Dyn.setStringOption.
    destruct (Field.of_key k2) as [f2|] eqn:E2, (String.eqb k1 "prefix");
      cbn [fst]; rewrite ?Dyn_setBoolOption_of_key, ?E2; try reflexivity.
    cbn [fst]. symmetry. apply Dyn_assign_bool_set_Prefix.
  - intros Hk. unfold Dyn.setStringOption.
    destruct (String.eqb_spec k1 "prefix") as [->|], (String.eqb_spec k2 "prefix") as [->|];
      cbn [fst]; try reflexivity.
    now elim Hk.
Qed.

(** X12.  Two directives for different keys may be applied in either
    order, with the same configuration at the end -- unless one is
    [nocase] with the value true and the other is [lower], the one pair
    of keys that assign a common field. *)
Theorem X12_different_keys_commute
  (d1 d2 k1 k2 : string) (v1 v2 : Dyn.any) (ec : Dyn.EnumConfig) :
  Dyn.directive_form (strings.TrimSpace d1) k1 v1 ->
  Dyn.directive_form (strings.TrimSpace d2) k2 v2 ->
  k1 <> k2 ->
  ~ (k1 = "nocase" /\ v1 = Dyn.any_bool true /\ k2 = "lower") ->
  ~ (k2 = "nocase" /\ v2 = Dyn.any_bool true /\ k1 = "lower") ->
  fst (Dyn.ParseAnnotation d2 (fst (Dyn.ParseAnnotation d1 ec))) =
  fst (Dyn.ParseAnnotation d1 (fst (Dyn.ParseAnnotation d2 ec))).
Proof.
  intros F1 F2 Hk H1 H2. rewrite !Dyn_ParseAnnotation_action.
  apply form_action in F1, F2. apply Dyn_perform_commute.
  destruct F1 as [(b1 & -> & ->)|(s1 & -> & ->)], F2 as [(b2 & -> & ->)|(s2 & -> & ->)];
    try exact I; try exact Hk.
  split; [exact Hk|]. split.
  - intros (-> & -> & ->). apply H1. now repeat split.
  - intros (-> & -> & ->). apply H2. now repeat split.
Qed.

Lemma X12_different_keys_commute_witness :
  fst (Dyn.ParseAnnotation "@prefix=My" (fst (Dyn.ParseAnnotation "@nocase" Dyn.NewEnumConfig))) =
  fst (Dyn.ParseAnnotation "@nocase" (fst (Dyn.ParseAnnotation "@prefix=My" Dyn.NewEnumConfig))).
Proof.
  apply (X12_different_keys_commute "@nocase" "@prefix=My" "nocase" "prefix"
           (Dyn.any_bool true) (Dyn.any_string "My") Dyn.NewEnumConfig).
  - replace (strings.TrimSpace "@nocase") with ("@" ++ "nocase") by (vm_compute; reflexivity).
    apply Dyn.bare_key; vm_compute; reflexivity.
  - replace (strings.TrimSpace "@prefix=My") with ("@" ++ "prefix" ++ "=" ++ "My")
      by (vm_compute; reflexivity).
    apply (Dyn.key_equals "prefix" "My"); vm_compute; reflexivity.
  - discriminate.
  - intros (_ & _ & H). discriminate H.
  - intros (H & _). discriminate H.
Defined.

(* ------------------------------------------------------------------ *)
(** * Sequences of annotations *)

Lemma Dyn_accepted_true (d : string) (ec : Dyn.EnumConfig) :
  Dyn_accepted d = true -> snd (Dyn.ParseAnnotation d ec) = Nil.
Proof.
  unfold Dyn_accepted. rewrite !Dyn_ParseAnnotation_action.
  rewrite (perform_outcome _ Dyn.NewEnumConfig Gen.NewEnumConfig).
  rewrite (perform_outcome _ ec Gen.NewEnumConfig).
  now destruct (snd (Gen.perform (directive_action d) Gen.NewEnumConfig)).
Qed.

Lemma Dyn_accepted_false (d : string) (ec : Dyn.EnumConfig) :
  Dyn_accepted d = false -> fst (Dyn.ParseAnnotation d ec) = ec.
Proof.
  unfold Dyn_accepted. rewrite !Dyn_ParseAnnotation_action. intros H.
  apply Dyn_perform_failure.
  rewrite (perform_outcome _ ec Gen.NewEnumConfig).
  rewrite (perform_outcome _ Dyn.NewEnumConfig Gen.NewEnumConfig) in H.
  now destruct (snd (Gen.perform (directive_action d) Gen.NewEnumConfig)).
Qed.

(** X13.  The annotations that are refused leave no trace: a sequence of
    calls ends on the configuration that the accepted annotations alone,
    in the same order, lead to -- and on those every call returns
    [nil]. *)
Theorem X13_refused_annotations_leave_no_trace (ds : list string) (ec : Dyn.EnumConfig) :
  fst (Dyn.parse_all ds ec) = fst (Dyn.parse_all (filter Dyn_accepted ds) ec) /\
  Forall (eq Nil) (snd (Dyn.parse_all (filter Dyn_accepted ds) ec)).
Proof.
  revert ec. induction ds as [|d ds IH]; intros ec.
  - split; [reflexivity|constructor].
  - cbn [filter]. rewrite Dyn_parse_all_cons. cbn [fst].
    destruct (Dyn_accepted d) eqn:Hd.
    + rewrite Dyn_parse_all_cons. cbn [fst snd].
      destruct (IH (fst (Dyn.ParseAnnotation d ec))) as [Hc Ho].
      split; [exact Hc|]. constructor; [|exact Ho].
      symmetry. now apply Dyn_accepted_true.
    + rewrite (Dyn_accepted_false d ec Hd). apply IH.
Qed.

(** A directive that is not for the key of [f], nor [nocase] with true
    when [f] is [LowercaseLookup], leaves [f] as it is. *)
Lemma Dyn_other_key_keeps_field (d : string) (f : Dyn.field) (ec : Dyn.EnumConfig) :
  (forall key v,
      Dyn.directive_form (strings.TrimSpace d) key v ->
      key <> Dyn.key_of f /\
      ~ (key = "nocase" /\ v = Dyn.any_bool true /\
         f = Dyn.BoolField Field.LowercaseLookup)) ->
  Dyn.get f (fst (Dyn.ParseAnnotation d ec)) = Dyn.get f ec.
Proof.
  intros Hother. rewrite Dyn_ParseAnnotation_action.
  pose proof (action_form d) as Hform.
  destruct (Dyn_perform_get (directive_action d) ec f)
    as [Heq|[Hok [(b & Ha & Hg)|[(s & Ha & Hg)|(Ha & Hll & Hg)]]]];
    [exact Heq| | |]; rewrite Ha in Hform; exfalso.
  - now destruct (Hother _ _ Hform) as [Hk _].
  - now destruct (Hother _ _ Hform) as [Hk _].
  - destruct (Hother _ _ Hform) as [_ Hn]. apply Hn. now repeat split.
Qed.

(** X14.  Along a sequence, the last accepted directive for the key of a
    field decides the field: whatever comes before it, and whatever
    directives for other keys come after it ([nocase] with true counting
    as a directive for [LowercaseLookup] too), the field ends set and
    holding the value of that directive. *)
Theorem X14_last_directive_for_a_key_decides
  (ds1 ds2 : list string) (d : string) (f : Dyn.field) (v : Dyn.any)
  (ec : Dyn.EnumConfig) :
  Dyn.directive_form (strings.TrimSpace d) (Dyn.key_of f) v ->
  Dyn_accepted d = true ->
  (forall d' key' v',
      In d' ds2 ->
      Dyn.directive_form (strings.TrimSpace d') key' v' ->
      key' <> Dyn.key_of f /\
      ~ (key' = "nocase" /\ v' = Dyn.any_bool true /\
         f = Dyn.BoolField Field.LowercaseLookup)) ->
  Dyn.get f (fst (Dyn.parse_all (ds1 ++ d :: ds2) ec)) = Dyn.mkValue v true.
Proof.
  intros Hform Hacc Hlater.
  rewrite Dyn_parse_all_app, Dyn_parse_all_cons. cbn [fst].
  set (e1 := fst (Dyn.parse_all ds1 ec)).
  assert (Hd : Dyn.get f (fst (Dyn.ParseAnnotation d e1)) = Dyn.mkValue v true).
  { pose proof (Dyn_accepted_true d e1 Hacc) as Hok.
    rewrite Dyn_ParseAnnotation_action in *.
    apply Dyn_perform_key; [|exact Hok]. now apply form_action. }
  revert Hd. generalize (fst (Dyn.ParseAnnotation d e1)) as e. clear e1.
  induction ds2 as [|d' ds2 IH]; intros e He; [exact He|].
  rewrite Dyn_parse_all_cons. cbn [fst]. apply IH.
  - intros d'' key' v' Hin. apply Hlater. now right.
  - rewrite Dyn_other_key_keeps_field; [exact He|].
    intros key' v'. apply Hlater. now left.
Qed.

Lemma X14_last_directive_for_a_key_decides_witness :
  Dyn.get (Dyn.BoolField Field.Marshal)
    (fst (Dyn.parse_all (["@marshal"; "@sql"] ++ "@marshal:false" :: ["@flag"])
            Dyn.NewEnumConfig)) =
  Dyn.mkValue (Dyn.any_bool false) true.
Proof.
  apply (X14_last_directive_for_a_key_decides ["@marshal"; "@sql"] ["@flag"]
           "@marshal:false" (Dyn.BoolField Field.Marshal) (Dyn.any_bool false)).
  - replace (strings.TrimSpace "@marshal:false") with ("@" ++ "marshal" ++ ":" ++ "false")
      by (vm_compute; reflexivity).
    apply (Dyn.key_colon_bool "marshal" "false" false); vm_compute; reflexivity.
  - vm_compute. reflexivity.
  - intros d' key' v' [<-|[]] Hform. apply form_action in Hform.
    destruct Hform as [(b & -> & Ha)|(s & -> & Ha)]; vm_compute in Ha;
      [|discriminate Ha].
    injection Ha as <- <-. split; [discriminate|].
    intros (H & _). discriminate H.
Defined.

(* ------------------------------------------------------------------ *)
(** * Values of [prefix], quoted or not *)

Lemma append_assoc (a b c : string) : (a ++ b) ++ c = a ++ b ++ c.
Proof. induction a as [|x a IH]; cbn; [reflexivity|now rewrite IH]. Qed.

Lemma append_nil_r (s : string) : s ++ "" = s.
Proof. induction s as [|x s IH]; cbn; [reflexivity|now rewrite IH]. Qed.

Lemma last_get_app (x y : string) :
  y <> "" -> get (length (x ++ y) - 1) (x ++ y) = get (length y - 1) y.
Proof.
  intros Hy. rewrite length_append.
  replace (length x + length y - 1) with ((length y - 1) + length x).
  - symmetry. apply append_correct2.
  - destruct y; [contradiction|cbn; lia].
Qed.

Lemma marked_ends_last (v : string) :
  marked_ends v = true ->
  v <> "" /\ exists l, get (length v - 1) v = Some l /\ ascii_mark l = true.
Proof.
  unfold marked_ends. destruct (get 0 v) as [c|] eqn:Hc; [|discriminate].
  destruct (get (length v - 1) v) as [l|]; [|discriminate].
  intros H. apply andb_true_iff in H as [_ Hl]. split; [|eauto].
  intros ->. discriminate Hc.
Qed.

(** A text that starts with an ASCII mark and ends with a text of marked
    ends has marked ends. *)
Lemma marked_ends_app_r (c : ascii) (x v : string) :
  ascii_mark c = true -> marked_ends v = true -> marked_ends (String c (x ++ v)) = true.
Proof.
  intros Hc Hv. destruct (marked_ends_last v Hv) as (Hne & l & Hl & Hm).
  unfold marked_ends.
  change (String c (x ++ v)) with (String c x ++ v).
  rewrite (last_get_app (String c x) v Hne), Hl.
  cbn [append get]. now rewrite Hc, Hm.
Qed.

Lemma quoted_marked (q : ascii) (s : string) :
  q = double_quote \/ q = single_quote -> marked_ends (quoted q s) = true.
Proof.
  intros Hq. unfold quoted.
  apply (marked_ends_app_r q s (String q "")); destruct Hq as [->| ->]; reflexivity.
Qed.

(** One layer of matching quotes comes off. *)
Lemma strip_quotes_quoted (q : ascii) (s : string) :
  q = double_quote \/ q = single_quote -> strip_quotes (quoted q s) = s.
Proof.
  intros Hq. unfold strip_quotes, quoted. cbv zeta.
  assert (Hlen : length (String q (s ++ String q "")) = S (S (length s))).
  { cbn [length]. rewrite length_append. cbn [length]. lia. }
  assert (Hlast : get (S (length s)) (String q (s ++ String q "")) = Some q).
  { cbn [get]. change (length s) with (0 + length s).
    now rewrite <- (append_correct2 s (String q "") 0). }
  rewrite Hlen. cbn [Nat.leb Nat.sub andb].
  assert (Hcut : slice (String q (s ++ String q "")) 1 (S (length s)) = s).
  { pose proof (slice_app_left s (String q "")) as H. unfold slice in *.
    cbn [Nat.sub substring]. now rewrite Nat.sub_0_r in *. }
  unfold at_index. rewrite Hlast, Hcut. cbn [get].
  destruct Hq as [->| ->]; reflexivity.
Qed.

Lemma quoted_not_bool_text (q : ascii) (s : string) :
  q = double_quote \/ q = single_quote ->
  String.eqb (quoted q s) "true" = false /\ String.eqb (quoted q s) "false" = false.
Proof. intros [->| ->]; split; reflexivity. Qed.

Lemma Index_char_none_app (sep : ascii) (a b : string) :
  strings.Index a (String sep "") = None ->
  strings.Index b (String sep "") = None ->
  strings.Index (a ++ b) (String sep "") = None.
Proof.
  intros Ha Hb. induction a as [|c a IH]; [exact Hb|].
  cbn [append]. rewrite Index_char_cons in *.
  destruct (ascii_dec sep c); [discriminate|].
  destruct (strings.Index a (String sep "")); [discriminate|].
  now rewrite IH.
Qed.

Lemma Contains_char_false (sep : ascii) (s : string) :
  strings.Contains s (String sep "") = false <-> strings.Index s (String sep "") = None.
Proof.
  unfold strings.Contains.
  destruct (strings.Index s (String sep "")); split; (reflexivity || discriminate).
Qed.

(** The colon form with the key [prefix] and a value of marked ends. *)
Lemma action_prefix_colon (v : string) :
  marked_ends v = true ->
  directive_action ("@prefix:" ++ v) =
  if String.eqb v "true" then SetBool "prefix" true
  else if String.eqb v "false" then SetBool "prefix" false
  else SetString "prefix" (strip_quotes v).
Proof.
  intros Hv.
  rewrite (action_colon ("@prefix:" ++ v) "prefix" v).
  - replace (strings.TrimSpace "prefix") with "prefix" by (vm_compute; reflexivity).
    now rewrite (TrimSpace_marked v Hv).
  - apply TrimSpace_marked.
    apply (marked_ends_app_r "@" "prefix:" v); [reflexivity|exact Hv].
  - reflexivity.
Qed.

(** The legacy form with the key [prefix] and a value of marked ends that
    holds no colon. *)
Lemma action_prefix_equals (v : string) :
  marked_ends v = true ->
  strings.Contains v ":" = false ->
  directive_action ("@prefix=" ++ v) = SetString "prefix" (strip_quotes v).
Proof.
  intros Hv Hc.
  rewrite (action_equals ("@prefix=" ++ v) "prefix" v).
  - replace (strings.TrimSpace "prefix") with "prefix" by (vm_compute; reflexivity).
    now rewrite (TrimSpace_marked v Hv).
  - apply TrimSpace_marked.
    apply (marked_ends_app_r "@" "prefix=" v); [reflexivity|exact Hv].
  - apply Contains_char_false. apply Contains_char_false in Hc.
    apply (Index_char_none_app ":" "prefix=" v); [reflexivity|exact Hc].
  - reflexivity.
Qed.

(** X15.  Between double or single quotes, any string at all -- empty,
    with white space, with [=], with quotes inside, the words [true] and
    [false] -- is set as the prefix by the colon form, exactly as it
    stands between the quotes; the legacy form does the same for every
    string that holds no colon. *)
Theorem X15_quoted_prefix_is_taken_literally
  (q : ascii) (v : string) (ec : Dyn.EnumConfig) :
  q = double_quote \/ q = single_quote ->
  Dyn.ParseAnnotation ("@prefix:" ++ quoted q v) ec =
    (Dyn.set_Prefix (Dyn.string_value v) ec, Nil) /\
  (strings.Contains v ":" = false ->
   Dyn.ParseAnnotation ("@prefix=" ++ quoted q v) ec =
     (Dyn.set_Prefix (Dyn.string_value v) ec, Nil)).
Proof.
  intros Hq. rewrite !Dyn_ParseAnnotation_action.
  pose proof (quoted_marked q v Hq) as Hm.
  destruct (quoted_not_bool_text q v Hq) as [Ht Hf].
  split.
  - rewrite (action_prefix_colon _ Hm), Ht, Hf, (strip_quotes_quoted q v Hq).
    reflexivity.
  - intros Hc. rewrite action_prefix_equals, (strip_quotes_quoted q v Hq);
      [reflexivity|exact Hm|].
    apply Contains_char_false. apply Contains_char_false in Hc.
    unfold quoted. change (String q (v ++ String q "")) with (String q "" ++ v ++ String q "").
    repeat apply Index_char_none_app; try exact Hc;
      destruct Hq as [->| ->]; reflexivity.
Qed.

Lemma X15_quoted_prefix_is_taken_literally_witness :
  Dyn.ParseAnnotation ("@prefix:" ++ quoted double_quote " true = 'x' ") Dyn.NewEnumConfig =
    (Dyn.set_Prefix (Dyn.string_value " true = 'x' ") Dyn.NewEnumConfig, Nil).
Proof.
  apply (proj1 (X15_quoted_prefix_is_taken_literally double_quote " true = 'x' "
                  Dyn.NewEnumConfig (or_introl eq_refl))).
Defined.

(** X16.  Take a value that is empty, or that starts and ends with
    ASCII bytes that are not white space.  After [@prefix:] it is set as
    the prefix with one layer of matching quotes taken off -- except the
    words [true] and [false], which go to [setBoolOption] and are refused
    there as the unknown annotation [@prefix]; after [@prefix=] every
    such value without a colon is set, [true] and [false] included. *)
Theorem X16_unquoted_prefix (v : string) (ec : Dyn.EnumConfig) :
  v = "" \/ marked_ends v = true ->
  Dyn.ParseAnnotation ("@prefix:" ++ v) ec =
    (if String.eqb v "true" || String.eqb v "false"
     then (ec, Errorf "unknown annotation: @prefix")
     else (Dyn.set_Prefix (Dyn.string_value (strip_quotes v)) ec, Nil)) /\
  (strings.Contains v ":" = false ->
   Dyn.ParseAnnotation ("@prefix=" ++ v) ec =
     (Dyn.set_Prefix (Dyn.string_value (strip_quotes v)) ec, Nil)).
Proof.
  intros [->|Hm]; rewrite !Dyn_ParseAnnotation_action.
  - replace (directive_action ("@prefix:" ++ "")) with (SetString "prefix" "")
      by (vm_compute; reflexivity).
    replace (directive_action ("@prefix=" ++ "")) with (SetString "prefix" "")
      by (vm_compute; reflexivity).
    split; [reflexivity|intros _; reflexivity].
  - split.
    + rewrite (action_prefix_colon v Hm).
      destruct (String.eqb v "true"); [reflexivity|].
      destruct (String.eqb v "false"); reflexivity.
    + intros Hc. now rewrite (action_prefix_equals v Hm Hc).
Qed.

Lemma X16_unquoted_prefix_witness :
  (Dyn.ParseAnnotation ("@prefix:" ++ "true") Dyn.NewEnumConfig =
     (Dyn.NewEnumConfig, Errorf "unknown annotation: @prefix") /\
   Dyn.ParseAnnotation ("@prefix=" ++ "true") Dyn.NewEnumConfig =
     (Dyn.set_Prefix (Dyn.string_value "true") Dyn.NewEnumConfig, Nil)) /\
  Dyn.ParseAnnotation ("@prefix:" ++ "") Dyn.NewEnumConfig =
    (Dyn.set_Prefix (Dyn.string_value "") Dyn.NewEnumConfig, Nil).
Proof.
  destruct (X16_unquoted_prefix "true" Dyn.NewEnumConfig (or_intror eq_refl)) as [H1 H2].
  destruct (X16_unquoted_prefix "" Dyn.NewEnumConfig (or_introl eq_refl)) as [H3 _].
  split; [split; [exact H1|exact (H2 eq_refl)]|exact H3].
Defined.

(* ------------------------------------------------------------------ *)
(** * White space around the key and the value *)

Lemma ascii_spaces_no_char (w : string) (c : ascii) :
  ascii_spaces w = true ->
  strings.asciiSpace (byte_val c) = false ->
  strings.Index w (String c "") = None.
Proof.
  intros Hw Hc. induction w as [|a w IH]; [reflexivity|].
  rewrite ascii_spaces_cons in Hw. apply andb_true_iff in Hw as [Ha Hw].
  rewrite Index_char_cons. destruct (ascii_dec c a) as [->|_]; [congruence|].
  now rewrite IH.
Qed.

Lemma TrimSpace_padded_left (w v : string) :
  ascii_spaces w = true -> marked_ends v = true -> strings.TrimSpace (w ++ v) = v.
Proof.
  intros Hw Hv. pose proof (TrimSpace_padded w v "" Hw eq_refl Hv) as H.
  now rewrite append_nil_r in H.
Qed.

(** A directive with a separator [sep] (the colon or [=]), padded with
    ASCII white space around the key and around the value: what
    [TrimSpace] makes of it, and that its key part holds no [sep]. *)
Lemma padded_directive (sep : ascii) (w1 k w2 w3 v w4 : string) :
  ascii_spaces w1 = true -> ascii_spaces w2 = true ->
  ascii_spaces w3 = true -> ascii_spaces w4 = true ->
  marked_ends v = true ->
  strings.asciiSpace (byte_val sep) = false ->
  strings.Index k (String sep "") = None ->
  strings.TrimSpace ("@" ++ w1 ++ k ++ w2 ++ String sep (w3 ++ v ++ w4)) =
    "@" ++ (w1 ++ k ++ w2) ++ String sep (w3 ++ v) /\
  strings.Index (w1 ++ k ++ w2) (String sep "") = None.
Proof.
  intros H1 H2 H3 H4 Hv Hsep Hk. split.
  - assert (Hshape : "@" ++ w1 ++ k ++ w2 ++ String sep (w3 ++ v ++ w4) =
                     "" ++ String "@" (((w1 ++ k ++ w2) ++ String sep w3) ++ v) ++ w4).
    { repeat (cbn [append]; rewrite ?append_assoc). reflexivity. }
    rewrite Hshape, TrimSpace_padded; [|reflexivity|exact H4|].
    + repeat (cbn [append]; rewrite ?append_assoc). reflexivity.
    + now apply marked_ends_app_r.
  - repeat apply Index_char_none_app; try exact Hk; now apply ascii_spaces_no_char.
Qed.

Lemma plain_directive (sep : ascii) (k v : string) :
  marked_ends v = true ->
  strings.TrimSpace ("@" ++ k ++ String sep v) = "@" ++ k ++ String sep v.
Proof.
  intros Hv. apply TrimSpace_marked.
  change ("@" ++ k ++ String sep v) with (String "@" (k ++ String sep "" ++ v)).
  rewrite <- append_assoc. now apply marked_ends_app_r.
Qed.

(** X17.  In the two forms with a separator, ASCII white space around the
    key and around the value is immaterial: the padded directive does
    what the directive without the padding does.  (The key and the value
    start and end with ASCII bytes that are not white space, and the key
    holds no separator.) *)
Theorem X17_inner_white_space_is_ignored
  (w1 k w2 w3 v w4 : string) (ec : Dyn.EnumConfig) :
  ascii_spaces w1 = true -> ascii_spaces w2 = true ->
  ascii_spaces w3 = true -> ascii_spaces w4 = true ->
  marked_ends k = true -> marked_ends v = true ->
  strings.Index k ":" = None ->
  Dyn.ParseAnnotation ("@" ++ w1 ++ k ++ w2 ++ ":" ++ w3 ++ v ++ w4) ec =
    Dyn.ParseAnnotation ("@" ++ k ++ ":" ++ v) ec /\
  (strings.Index k "=" = None ->
   strings.Index v ":" = None ->
   Dyn.ParseAnnotation ("@" ++ w1 ++ k ++ w2 ++ "=" ++ w3 ++ v ++ w4) ec =
     Dyn.ParseAnnotation ("@" ++ k ++ "=" ++ v) ec).
Proof.
  intros H1 H2 H3 H4 Hk Hv Hkc.
  assert (HK : strings.TrimSpace (w1 ++ k ++ w2) = k) by now apply TrimSpace_padded.
  assert (HV : strings.TrimSpace (w3 ++ v) = v) by now apply TrimSpace_padded_left.
  rewrite !Dyn_ParseAnnotation_action. split.
  - destruct (padded_directive ":" w1 k w2 w3 v w4) as [Ht Hi]; auto.
    change (":" ++ w3 ++ v ++ w4) with (String ":" (w3 ++ v ++ w4)).
    rewrite (action_colon _ _ _ Ht Hi), HK, HV.
    change ("@" ++ k ++ ":" ++ v) with ("@" ++ k ++ String ":" v).
    rewrite (action_colon _ k v (plain_directive ":" k v Hv) Hkc).
    now rewrite !TrimSpace_marked.
  - intros Hke Hvc.
    destruct (padded_directive "=" w1 k w2 w3 v w4) as [Ht Hi]; auto.
    change ("=" ++ w3 ++ v ++ w4) with (String "=" (w3 ++ v ++ w4)).
    rewrite (action_equals _ _ _ Ht), HK, HV; [|
      apply Contains_char_false;
      repeat apply Index_char_none_app; try reflexivity; try assumption;
      now apply ascii_spaces_no_char |exact Hi].
    change ("@" ++ k ++ "=" ++ v) with ("@" ++ k ++ String "=" v).
    rewrite (action_equals _ k v (plain_directive "=" k v Hv)), !TrimSpace_marked;
      [reflexivity|exact Hv|exact Hk| |exact Hke].
    apply Contains_char_false.
    repeat apply Index_char_none_app; try reflexivity; assumption.
Qed.

Lemma X17_inner_white_space_is_ignored_witness :
  Dyn.ParseAnnotation ("@" ++ " " ++ "marshal" ++ "  " ++ ":" ++ " " ++ "true" ++ "")
    Dyn.NewEnumConfig =
  Dyn.ParseAnnotation ("@" ++ "marshal" ++ ":" ++ "true") Dyn.NewEnumConfig.
Proof.
  apply (proj1 (X17_inner_white_space_is_ignored " " "marshal" "  " " " "true" ""
                  Dyn.NewEnumConfig eq_refl eq_refl eq_refl eq_refl eq_refl eq_refl
                  eq_refl)).
Defined.

(* ------------------------------------------------------------------ *)
(** * A directive repeated later *)

Lemma Dyn_perform_assigned (a : action) (ec : Dyn.EnumConfig) (g : Dyn.field) :
  Dyn.get g (fst (Dyn.perform a ec)) =
  match Dyn_assigned a g with
  | Some v => v
  | None => Dyn.get g ec
  end.
Proof.
  destruct a as [| | |key value|key value]; try reflexivity; cbn [Dyn.perform Dyn_assigned].
  - rewrite Dyn_setBoolOption_of_key.
    destruct (Field.of_key key) as [f|]; cbn [fst]; [|now destruct g].
    destruct g as [gb|]; cbn [Dyn.get].
    + rewrite Dyn_get_assign_bool. now repeat split_on_test.
    + apply Dyn_Prefix_assign_bool.
  - unfold Dyn.setStringOption.
    destruct (String.eqb key "prefix"); cbn [fst]; [|now destruct g].
    destruct g as [gb|]; cbn [Dyn.get]; [apply Dyn_get_bool_set_Prefix|reflexivity].
Qed.

Lemma Dyn_config_ext (c1 c2 : Dyn.EnumConfig) :
  (forall g, Dyn.get g c1 = Dyn.get g c2) -> c1 = c2.
Proof.
  intros H.
  assert (Hb := fun f => H (Dyn.BoolField f)). assert (Hp := H Dyn.PrefixField).
  clear H. destruct c1, c2. cbn in Hp.
  generalize (Hb Field.NoPrefix) (Hb Field.NoIota) (Hb Field.LowercaseLookup)
    (Hb Field.CaseInsensitive) (Hb Field.Marshal) (Hb Field.SQL) (Hb Field.SQLInt)
    (Hb Field.Flag) (Hb Field.Names) (Hb Field.Values) (Hb Field.LeaveSnakeCase)
    (Hb Field.Ptr) (Hb Field.SQLNullInt) (Hb Field.SQLNullStr) (Hb Field.MustParse)
    (Hb Field.ForceLower) (Hb Field.ForceUpper) (Hb Field.NoComments)
    (Hb Field.NoParse).
  clear Hb. cbn [Dyn.get Dyn.get_bool Dyn.NoPrefix Dyn.NoIota Dyn.LowercaseLookup
                 Dyn.CaseInsensitive Dyn.Marshal Dyn.SQL Dyn.SQLInt Dyn.Flag Dyn.Names
                 Dyn.Values Dyn.LeaveSnakeCase Dyn.Ptr Dyn.SQLNullInt Dyn.SQLNullStr
                 Dyn.MustParse Dyn.ForceLower Dyn.ForceUpper Dyn.NoComments Dyn.NoParse].
  intros; subst; reflexivity.
Qed.

(** Configurations that agree outside the fields a decision assigns
    still do so after any sequence of calls. *)
Lemma Dyn_parse_all_agree (a : action) (xs : list string) :
  forall e1 e2 : Dyn.EnumConfig,
    (forall g, Dyn_assigned a g = None -> Dyn.get g e1 = Dyn.get g e2) ->
    forall g, Dyn_assigned a g = None ->
              Dyn.get g (fst (Dyn.parse_all xs e1)) = Dyn.get g (fst (Dyn.parse_all xs e2)).
Proof.
  induction xs as [|x xs IH]; intros e1 e2 Hag; [exact Hag|].
  rewrite !Dyn_parse_all_cons. cbn [fst]. apply IH.
  intros g Hg. rewrite !Dyn_ParseAnnotation_action, !Dyn_perform_assigned.
  destruct (Dyn_assigned (directive_action x) g); [reflexivity|now apply Hag].
Qed.

(** X18.  When a directive occurs again later in a sequence, its earlier
    occurrence makes no difference to the configuration at the end:
    dropping the earlier one leaves the result as it is.  (So
    [@marshal @sql @marshal] comes to [@sql @marshal].) *)
Theorem X18_earlier_duplicate_is_redundant
  (d : string) (xs : list string) (ec : Dyn.EnumConfig) :
  fst (Dyn.parse_all (d :: xs ++ [d]) ec) = fst (Dyn.parse_all (xs ++ [d]) ec).
Proof.
  rewrite Dyn_parse_all_cons. cbn [fst]. rewrite !Dyn_parse_all_app.
  rewrite !Dyn_parse_all_cons. cbn [Dyn.parse_all fst].
  apply Dyn_config_ext. intros g.
  rewrite !Dyn_ParseAnnotation_action, !Dyn_perform_assigned.
  destruct (Dyn_assigned (directive_action d) g) eqn:Hg; [reflexivity|].
  apply (Dyn_parse_all_agree (directive_action d)); [|exact Hg].
  intros g' Hg'. now rewrite Dyn_perform_assigned, Hg'.
Qed.

(* ------------------------------------------------------------------ *)
(** * The two versions, from any pair of configurations that agree *)

(** X19.  The two versions stay in step from any pair of configurations
    that agree slot by slot (same flags and, where set, same values), not
    only from fresh ones: after any sequence of annotations they have
    returned the same outcomes and the configurations agree again, so
    that [GetBool] on a boolean field returns the same in both. *)
Theorem X19_versions_stay_in_step
  (ds : list string) (cd : Dyn.EnumConfig) (cg : Gen.EnumConfig) :
  same_config cd cg ->
  snd (Dyn.parse_all ds cd) = snd (Gen.parse_all ds cg) /\
  same_config (fst (Dyn.parse_all ds cd)) (fst (Gen.parse_all ds cg)) /\
  (forall (f : Field.bool_field) (def : bool),
      Dyn.GetBool (Dyn.get_bool f (fst (Dyn.parse_all ds cd))) def =
      Gen.GetBool (Gen.get_bool f (fst (Gen.parse_all ds cg))) def).
Proof.
  intros Hs. destruct (same_config_parse_all ds cd cg Hs) as [Ho Hc].
  split; [exact Ho|]. split; [exact Hc|].
  intros f def. destruct Hc as [Hb _]. destruct (Hb f) as [Hv Hval].
  unfold Dyn.GetBool, Gen.GetBool. rewrite Hv.
  destruct (Gen.Valid (Gen.get_bool f _)); [|reflexivity].
  now rewrite (Hval eq_refl).
Qed.

Lemma X19_versions_stay_in_step_witness :
  snd (Dyn.parse_all ["@lower:false"; "nocase"]
         (Dyn.set_bool Field.Marshal (Dyn.bool_value true) Dyn.NewEnumConfig)) =
  snd (Gen.parse_all ["@lower:false"; "nocase"]
         (Gen.set_bool Field.Marshal (Gen.mkValue true true) Gen.NewEnumConfig)).
Proof.
  apply (X19_versions_stay_in_step ["@lower:false"; "nocase"]
           (Dyn.set_bool Field.Marshal (Dyn.bool_value true) Dyn.NewEnumConfig)
           (Gen.set_bool Field.Marshal (Gen.mkValue true true) Gen.NewEnumConfig)).
  split.
  - intros f. destruct f; split; (reflexivity || discriminate || (intros _; reflexivity)).
  - split; (reflexivity || discriminate).
Defined.

(* ------------------------------------------------------------------ *)
(** * What the errors say *)

Lemma of_key_not_in_bool_keys (key : string) :
  ~ In key bool_keys -> Field.of_key key = None.
Proof.
  intros Hn. destruct (Field.of_key key) as [f|] eqn:Hk; [|reflexivity].
  apply Field_of_key_Some in Hk. subst key. destruct Hn. apply Field_key_in_bool_keys.
Qed.

(** X20.  The errors echo the directive.  A text that does not start with
    the marker comes back in the message after
    [annotation must start with @: ]; a bare key that is not one of the
    nineteen -- the lone marker included, whose key is empty -- comes
    back after [unknown annotation: @].  In both cases the configuration
    is unchanged. *)
Theorem X20_errors_echo_the_directive (d body : string) (ec : Dyn.EnumConfig) :
  (marked_ends d = true ->
   strings.HasPrefix d "@" = false ->
   Dyn.ParseAnnotation d ec = (ec, Errorf ("annotation must start with @: " ++ d))) /\
  (body = "" \/ marked_ends body = true ->
   strings.Contains body ":" = false ->
   strings.Contains body "=" = false ->
   ~ In body bool_keys ->
   Dyn.ParseAnnotation ("@" ++ body) ec = (ec, Errorf ("unknown annotation: @" ++ body))).
Proof.
  split.
  - intros Hm Hp. unfold Dyn.ParseAnnotation. cbv zeta.
    rewrite (TrimSpace_marked d Hm), Hp.
    destruct (String.eqb_spec d "") as [->|_]; [discriminate Hm|reflexivity].
  - intros Hb Hc He Hn. rewrite Dyn_ParseAnnotation_action.
    rewrite (action_bare ("@" ++ body) body); [|
      destruct Hb as [->|Hb]; [reflexivity|];
      apply TrimSpace_marked; now apply (marked_ends_app_r "@" "" body)
      |exact Hc|exact He].
    cbn [Dyn.perform]. rewrite Dyn_setBoolOption_of_key.
    now rewrite (of_key_not_in_bool_keys body Hn).
Qed.

Lemma X20_errors_echo_the_directive_witness :
  Dyn.ParseAnnotation "marshal" Dyn.NewEnumConfig =
    (Dyn.NewEnumConfig, Errorf ("annotation must start with @: " ++ "marshal")) /\
  Dyn.ParseAnnotation ("@" ++ "") Dyn.NewEnumConfig =
    (Dyn.NewEnumConfig, Errorf ("unknown annotation: @" ++ "")).
Proof.
  destruct (X20_errors_echo_the_directive "marshal" "" Dyn.NewEnumConfig) as [H1 H2].
  split.
  - apply H1; reflexivity.
  - apply H2; [now left|reflexivity|reflexivity|].
    cbn. intuition discriminate.
Defined.

(* ------------------------------------------------------------------ *)
(** * A colon in a value of the legacy form *)

(** X21.  The legacy form cannot carry a value with a colon, not even
    between quotes: the colon test comes first, so the directive is cut
    at that colon, what stands before it ([prefix=], the quote and the
    start of the value) is taken for the key, and the call fails with
    the configuration unchanged.  (The part of the value before its
    first colon is empty or ends with an ASCII byte that is not white
    space.) *)
Theorem X21_legacy_form_cannot_carry_a_colon
  (q : ascii) (a b : string) (ec : Dyn.EnumConfig) :
  q = double_quote \/ q = single_quote ->
  strings.Index a ":" = None ->
  marked_ends (String q a) = true ->
  exists msg,
    Dyn.ParseAnnotation ("@prefix=" ++ quoted q (a ++ ":" ++ b)) ec = (ec, Errorf msg).
Proof.
  intros Hq Ha Hm.
  set (K := "prefix=" ++ String q a). set (V := b ++ String q "").
  assert (Hshape : "@prefix=" ++ quoted q (a ++ ":" ++ b) = "@" ++ K ++ ":" ++ V).
  { unfold quoted, K, V. repeat (cbn [append]; rewrite ?append_assoc). reflexivity. }
  assert (Hquote : marked_ends (String q "") = true) by (destruct Hq as [->| ->]; reflexivity).
  assert (Hd : strings.TrimSpace ("@" ++ K ++ ":" ++ V) = "@" ++ K ++ ":" ++ V).
  { apply TrimSpace_marked. unfold V.
    change ("@" ++ K ++ ":" ++ b ++ String q "")
      with (String "@" (K ++ String ":" "" ++ b ++ String q "")).
    rewrite <- !append_assoc. now apply marked_ends_app_r. }
  assert (HK : strings.Index K ":" = None).
  { unfold K. apply (Index_char_none_app ":" "prefix=" (String q a)); [reflexivity|].
    rewrite Index_char_cons, Ha.
    destruct (ascii_dec ":" q) as [<-|_]; [|reflexivity].
    destruct Hq as [Hq|Hq]; discriminate Hq. }
  assert (HtK : strings.TrimSpace K = K).
  { apply TrimSpace_marked. unfold K.
    now apply (marked_ends_app_r "p" "refix=" (String q a)). }
  rewrite Hshape, Dyn_ParseAnnotation_action, (action_colon _ K V Hd HK), HtK.
  assert (Hb : forall value, Dyn.perform (SetBool K value) ec =
                             (ec, Errorf ("unknown annotation: @" ++ K))).
  { intros value. cbn [Dyn.perform]. now rewrite Dyn_setBoolOption_of_key. }
  destruct (String.eqb (strings.TrimSpace V) "true"); [rewrite Hb; eauto|].
  destruct (String.eqb (strings.TrimSpace V) "false"); [rewrite Hb; eauto|].
  cbn [Dyn.perform]. unfold Dyn.setStringOption.
  change (String.eqb K "prefix") with false. eauto.
Qed.

Lemma X21_legacy_form_cannot_carry_a_colon_witness :
  exists msg,
    Dyn.ParseAnnotation ("@prefix=" ++ quoted double_quote ("a" ++ ":" ++ "b"))
      Dyn.NewEnumConfig = (Dyn.NewEnumConfig, Errorf msg).
Proof.
  apply (X21_legacy_form_cannot_carry_a_colon double_quote "a" "b" Dyn.NewEnumConfig);
    [now left|reflexivity|reflexivity].
Defined.
